(** * component-generator: a shallow embedding of [index.js]

    The program reads [cg.config.json] from the working directory, asks for a
    component name, creates the component directory and copies every entry of
    the template directory into it, substituting the configured placeholder in
    entry names (with [String.prototype.replace] and a string pattern) and in
    file contents (with a global [RegExp] built from the placeholder).

    A JavaScript string is modelled by [string]: the sequence of its code
    units, restricted to the range of [ascii].  Paths follow the POSIX flavour
    of Node's [path] module.  The file system is a finite map from normalised
    absolute paths to nodes; permissions, links and full disks are not
    modelled.

    Three things are modelled in part: the pattern language of [RegExp] (see
    [RegExp.parse]), the [\u] escape of JSON, and the conversion to a string
    of a placeholder that is not one.  A run that meets one of them ends as
    [OutsideModel], at the point where it met it. *)

From Stdlib Require Import Ascii String List Bool Arith Lia.
From stdpp Require Import base option list strings gmap fin_maps.

Open Scope string_scope.

Set Warnings "-register-all".

(** ** Strings *)

Module Str.

(** [strip_prefix p s] is the rest of [s] after the prefix [p], when [s]
    starts with [p]. *)
Fixpoint strip_prefix (p s : string) : option string :=
  match p with
  | EmptyString => Some s
  | String a p' =>
      match s with
      | EmptyString => None
      | String b s' => if Ascii.eqb a b then strip_prefix p' s' else None
      end
  end.

(** [find_first p s] cuts [s] around the leftmost occurrence of [p] (the
    position [s.indexOf(p)]): the part before it and the part after it. *)
Fixpoint find_first (p s : string) : option (string * string) :=
  match strip_prefix p s with
  | Some rest => Some (EmptyString, rest)
  | None =>
      match s with
      | EmptyString => None
      | String c s' =>
          match find_first p s' with
          | Some (before, after) => Some (String c before, after)
          | None => None
          end
      end
  end.

Definition contains (p s : string) : bool :=
  match find_first p s with Some _ => true | None => false end.

Fixpoint has_char (c : ascii) (s : string) : bool :=
  match s with
  | EmptyString => false
  | String d s' => Ascii.eqb c d || has_char c s'
  end.

Fixpoint take (n : nat) (s : string) : string :=
  match n, s with
  | S k, String c s' => String c (take k s')
  | _, _ => EmptyString
  end.

Fixpoint drop (n : nat) (s : string) : string :=
  match n, s with
  | S k, String c s' => drop k s'
  | _, _ => s
  end.

Definition snoc (s : string) (c : ascii) : string := s +:+ String c EmptyString.

Fixpoint last_char (s : string) : option ascii :=
  match s with
  | EmptyString => None
  | String c EmptyString => Some c
  | String _ s' => last_char s'
  end.

(** [split sep s]: the pieces of [s] between occurrences of the character
    [sep] ([s.split(sep)]); never the empty list. *)
Fixpoint split (sep : ascii) (s : string) : list string :=
  match s with
  | EmptyString => [EmptyString]
  | String c s' =>
      if Ascii.eqb c sep then EmptyString :: split sep s'
      else match split sep s' with
           | piece :: rest => String c piece :: rest
           | [] => [String c EmptyString]
           end
  end.

(** [join sep l]: the strings of [l] with [sep] between them. *)
Fixpoint join (sep : string) (l : list string) : string :=
  match l with
  | [] => EmptyString
  | [x] => x
  | x :: rest => x +:+ sep +:+ join sep rest
  end.

(** The literal replace-all the documentation describes: every occurrence
    of [pat], leftmost first and without overlap, becomes [repl], which is
    copied as it is.  [skip] counts the characters of the occurrence being
    passed over.  For the empty pattern [repl] is put before every
    character and once at the end. *)
Fixpoint replace_all_from (pat repl : string) (s : string) (skip : nat) : string :=
  match skip with
  | S k =>
      match s with
      | EmptyString => EmptyString
      | String _ s' => replace_all_from pat repl s' k
      end
  | O =>
      match strip_prefix pat s with
      | Some _ =>
          repl +:+
          match String.length pat, s with
          | O, String c s' => String c (replace_all_from pat repl s' O)
          | S k, String _ s' => replace_all_from pat repl s' k
          | _, EmptyString => EmptyString
          end
      | None =>
          match s with
          | EmptyString => EmptyString
          | String c s' => String c (replace_all_from pat repl s' O)
          end
      end
  end.

Definition replace_all (pat repl s : string) : string :=
  replace_all_from pat repl s O.

(** [repl] put before every character of [s] and once at the end. *)
Fixpoint intersperse (repl s : string) : string :=
  match s with
  | EmptyString => repl
  | String c s' => repl +:+ String c (intersperse repl s')
  end.

End Str.

(** ** [String.prototype.replace] *)

Module JsString.

(** GetSubstitution of ECMA-262 for a match without capture groups:
    [$$] is a dollar sign, [$&] the matched text, [$`] the text before the
    match and [$'] the text after it.  [$1] to [$99] and [$<] refer to
    captures; with none they stay as they are written, like any other
    character after a dollar sign. *)
Fixpoint GetSubstitution (matched before after replacement : string) : string :=
  match replacement with
  | EmptyString => EmptyString
  | String c r =>
      if Ascii.eqb c "$" then
        match r with
        | EmptyString => String c EmptyString
        | String d r' =>
            if Ascii.eqb d "$" then
              String "$" (GetSubstitution matched before after r')
            else if Ascii.eqb d "&" then
              matched +:+ GetSubstitution matched before after r'
            else if Ascii.eqb d "`" then
              before +:+ GetSubstitution matched before after r'
            else if Ascii.eqb d "'" then
              after +:+ GetSubstitution matched before after r'
            else String c (GetSubstitution matched before after r)
        end
      else String c (GetSubstitution matched before after r)
  end.

(** [s.replace(pattern, replacement)] with a string [pattern]: only the
    first occurrence is replaced, and the replacement is expanded by
    [GetSubstitution]. *)
Definition replace (s pattern replacement : string) : string :=
  match Str.find_first pattern s with
  | None => s
  | Some (before, after) =>
      before +:+ GetSubstitution pattern before after replacement +:+ after
  end.

End JsString.

(** ** [RegExp] (a fragment) *)

Module RegExp.

(** The fragment of the pattern language that is modelled: a sequence of
    terms, each an assertion [^] or [$], or an atom (a character, an escaped
    syntax character, or [.]) with an optional greedy quantifier [*], [+]
    or [?].  Groups, alternatives, classes, braces, lazy quantifiers and
    the other escapes are outside the fragment. *)
Inductive atom := AChar (c : ascii) | AAny.
Inductive quant := QOne | QStar | QPlus | QOpt.
Inductive term := TAtom (a : atom) (q : quant) | TBol | TEol.
Definition regex := list term.

(** The outcome of [new RegExp(pattern, 'g')]. *)
Inductive compiled :=
| Compiled (r : regex)
| SyntaxError
| OutsideFragment.

Definition is_quantifier (c : ascii) : bool :=
  Ascii.eqb c "*" || Ascii.eqb c "+" || Ascii.eqb c "?".

(** The characters that cannot stand for themselves in a pattern. *)
Definition is_syntax_char (c : ascii) : bool :=
  Str.has_char c "^$\.*+?()[]{}|".

Definition cons_term (t : term) (r : compiled) : compiled :=
  match r with
  | Compiled l => Compiled (t :: l)
  | other => other
  end.

Definition quant_of (c : ascii) : quant :=
  if Ascii.eqb c "*" then QStar else if Ascii.eqb c "+" then QPlus else QOpt.

Definition starts_with_quest (s : string) : bool :=
  match s with
  | String c _ => Ascii.eqb c "?"
  | EmptyString => false
  end.

Fixpoint parse (s : string) : compiled :=
  match s with
  | EmptyString => Compiled []
  | String c r1 =>
      if is_quantifier c then SyntaxError                (* nothing to repeat *)
      else if Ascii.eqb c ")" then SyntaxError           (* unmatched ')' *)
      else if Ascii.eqb c "(" || Ascii.eqb c "[" || Ascii.eqb c "{"
              || Ascii.eqb c "|" then OutsideFragment
      else if Ascii.eqb c "^" then cons_term TBol (parse r1)
      else if Ascii.eqb c "$" then cons_term TEol (parse r1)
      else if Ascii.eqb c "\" then
        match r1 with
        | EmptyString => SyntaxError                     (* \ at end of pattern *)
        | String d r2 =>
            if is_syntax_char d || Ascii.eqb d "/" then
              match r2 with
              | String q r3 =>
                  if is_quantifier q then
                    if starts_with_quest r3 then OutsideFragment
                    else cons_term (TAtom (AChar d) (quant_of q)) (parse r3)
                  else cons_term (TAtom (AChar d) QOne) (parse r2)
              | EmptyString => Compiled [TAtom (AChar d) QOne]
              end
            else OutsideFragment
        end
      else
        let a := if Ascii.eqb c "." then AAny else AChar c in
        match r1 with
        | String q r2 =>
            if is_quantifier q then
              if starts_with_quest r2 then OutsideFragment
              else cons_term (TAtom a (quant_of q)) (parse r2)
            else cons_term (TAtom a QOne) (parse r1)
        | EmptyString => Compiled [TAtom a QOne]
        end
  end.

Definition is_line_terminator (c : ascii) : bool :=
  Ascii.eqb c "010" || Ascii.eqb c "013".

Definition atom_matches (a : atom) (c : ascii) : bool :=
  match a with
  | AChar d => Ascii.eqb d c
  | AAny => negb (is_line_terminator c)
  end.

(** Backtracking matcher.  [matches r bol s] is the length of the match of
    [r] at the front of [s], found the way the specification's matcher
    finds it: greedy, giving back one repetition at a time.  [bol] says
    that the front of [s] is the start of the whole input. *)
Fixpoint matches (r : regex) : bool -> string -> option nat :=
  match r with
  | [] => fun _ _ => Some O
  | t :: r' =>
      let k := matches r' in
      match t with
      | TBol => fun bol s => if bol then k bol s else None
      | TEol => fun bol s =>
          match s with
          | EmptyString => k bol s
          | String _ _ => None
          end
      | TAtom a q =>
          let star :=
            fix star (bol : bool) (s : string) : option nat :=
              match s with
              | String c s' =>
                  if atom_matches a c then
                    match star false s' with
                    | Some n => Some (S n)
                    | None => k bol s
                    end
                  else k bol s
              | EmptyString => k bol s
              end in
          match q with
          | QOne => fun bol s =>
              match s with
              | String c s' =>
                  if atom_matches a c then S <$> k false s' else None
              | EmptyString => None
              end
          | QOpt => fun bol s =>
              match s with
              | String c s' =>
                  if atom_matches a c then
                    match k false s' with
                    | Some n => Some (S n)
                    | None => k bol s
                    end
                  else k bol s
              | EmptyString => k bol s
              end
          | QStar => star
          | QPlus => fun bol s =>
              match s with
              | String c s' =>
                  if atom_matches a c then S <$> star false s' else None
              | EmptyString => None
              end
          end
      end
  end.

(** [s.replace(re, replacement)] for a global [re]: every match, leftmost
    first, is replaced by the expansion of [replacement].  After an empty
    match the search moves one character on.  [before] is the input up to
    the current position and [skip] the number of characters of the last
    match still to pass over. *)
Fixpoint replace_from (r : regex) (replacement : string)
         (before : string) (bol : bool) (s : string) (skip : nat) : string :=
  match skip with
  | S k =>
      match s with
      | EmptyString => EmptyString
      | String c s' => replace_from r replacement (Str.snoc before c) false s' k
      end
  | O =>
      match matches r bol s with
      | Some n =>
          JsString.GetSubstitution (Str.take n s) before (Str.drop n s) replacement +:+
          match n, s with
          | O, String c s' =>
              String c (replace_from r replacement (Str.snoc before c) false s' O)
          | S k, String c s' =>
              replace_from r replacement (Str.snoc before c) false s' k
          | _, EmptyString => EmptyString
          end
      | None =>
          match s with
          | EmptyString => EmptyString
          | String c s' =>
              String c (replace_from r replacement (Str.snoc before c) false s' O)
          end
      end
  end.

Definition replace (s : string) (r : regex) (replacement : string) : string :=
  replace_from r replacement EmptyString true s O.

End RegExp.

(** ** [path] (POSIX) *)

Module Path.

Definition sep : ascii := "/".

Definition isAbsolute (p : string) : bool :=
  match p with
  | String c _ => Ascii.eqb c sep
  | EmptyString => false
  end.

Definition hasTrailingSeparator (p : string) : bool :=
  match Str.last_char p with
  | Some c => Ascii.eqb c sep
  | None => false
  end.

(** [normalizeString]: the segments of a path with empty and [.] segments
    dropped and [..] resolved against the segment before it.  [stack] holds
    the segments kept so far, last one first.  Above the start of a relative
    path [..] is kept ([allowAboveRoot]); above the root it is dropped. *)
Fixpoint normalizeSegments (allowAboveRoot : bool) (stack segs : list string)
  : list string :=
  match segs with
  | [] => rev stack
  | seg :: rest =>
      if String.eqb seg "" || String.eqb seg "." then
        normalizeSegments allowAboveRoot stack rest
      else if String.eqb seg ".." then
        match stack with
        | top :: stack' =>
            if String.eqb top ".." then
              normalizeSegments allowAboveRoot
                (if allowAboveRoot then seg :: stack else stack) rest
            else normalizeSegments allowAboveRoot stack' rest
        | [] =>
            normalizeSegments allowAboveRoot
              (if allowAboveRoot then [seg] else []) rest
        end
      else normalizeSegments allowAboveRoot (seg :: stack) rest
  end.

Definition normalizeString (p : string) (allowAboveRoot : bool) : string :=
  Str.join "/" (normalizeSegments allowAboveRoot [] (Str.split sep p)).

Definition normalize (p : string) : string :=
  match p with
  | EmptyString => "."
  | _ =>
      let body := normalizeString p (negb (isAbsolute p)) in
      match body with
      | EmptyString =>
          if isAbsolute p then "/"
          else if hasTrailingSeparator p then "./" else "."
      | _ =>
          let body' := if hasTrailingSeparator p then body +:+ "/" else body in
          if isAbsolute p then "/" +:+ body' else body'
      end
  end.

Definition nonempty (s : string) : bool :=
  match s with EmptyString => false | _ => true end.

(** [path.join(...args)]: the non-empty arguments joined by [/], then
    normalised. *)
Definition join (args : list string) : string :=
  match List.filter nonempty args with
  | [] => "."
  | parts => normalize (Str.join "/" parts)
  end.

(** [path.resolve(...args)] in the working directory [cwd]: the arguments
    are taken from the right until the path is absolute, the working
    directory being used when none of them makes it so. *)
Fixpoint resolveArgs (args : list string) : string :=
  match args with
  | [] => EmptyString
  | a :: rest =>
      let tail := resolveArgs rest in
      if isAbsolute tail then tail
      else match a with
           | EmptyString => tail
           | _ => a +:+ "/" +:+ tail
           end
  end.

Definition resolve (cwd : string) (args : list string) : string :=
  let p := resolveArgs args in
  let p := if isAbsolute p then p else cwd +:+ "/" +:+ p in
  let body := normalizeString p (negb (isAbsolute p)) in
  if isAbsolute p then "/" +:+ body
  else match body with EmptyString => "." | _ => body end.

(** An absolute path with the given segments. *)
Definition render (segs : list string) : string := "/" +:+ Str.join "/" segs.

End Path.

(** ** [JSON.parse] *)

Module JSON.

Inductive value :=
| Null
| Bool (b : bool)
| Number (literal : string)
| Str (s : string)
| Array (items : list value)
| Object (members : list (string * value)).

(** The outcome of [JSON.parse(text)].  [OutsideFragment]: the text uses a
    [\u] escape, which is not modelled. *)
Inductive parsed :=
| Parsed (v : value)
| SyntaxError
| OutsideFragment.

Inductive res (A : Type) :=
| Got (a : A) (rest : string)
| Bad
| Out.
Arguments Got {A} a rest.
Arguments Bad {A}.
Arguments Out {A}.

Definition dquote : ascii := "034".
Definition backslash : ascii := "092".

Definition is_ws (c : ascii) : bool :=
  Ascii.eqb c " " || Ascii.eqb c "009" || Ascii.eqb c "010" || Ascii.eqb c "013".

Fixpoint skip_ws (s : string) : string :=
  match s with
  | String c s' => if is_ws c then skip_ws s' else s
  | EmptyString => s
  end.

Definition is_digit (c : ascii) : bool :=
  Nat.leb 48 (nat_of_ascii c) && Nat.leb (nat_of_ascii c) 57.

Fixpoint span_digits (s : string) : string * string :=
  match s with
  | String c s' =>
      if is_digit c then let '(d, r) := span_digits s' in (String c d, r)
      else (EmptyString, s)
  | EmptyString => (EmptyString, s)
  end.

(** The characters of a string literal after its opening quote. *)
Fixpoint string_body (s : string) : res string :=
  match s with
  | EmptyString => Bad
  | String c r =>
      if Ascii.eqb c dquote then Got EmptyString r
      else if Ascii.eqb c backslash then
        match r with
        | EmptyString => Bad
        | String e r' =>
            let esc (x : ascii) :=
              match string_body r' with
              | Got body rest => Got (String x body) rest
              | Bad => Bad
              | Out => Out
              end in
            if Ascii.eqb e dquote || Ascii.eqb e backslash || Ascii.eqb e "/"
            then esc e
            else if Ascii.eqb e "b" then esc "008"%char
            else if Ascii.eqb e "f" then esc "012"%char
            else if Ascii.eqb e "n" then esc "010"%char
            else if Ascii.eqb e "r" then esc "013"%char
            else if Ascii.eqb e "t" then esc "009"%char
            else if Ascii.eqb e "u" then Out
            else Bad
        end
      else if Nat.ltb (nat_of_ascii c) 32 then Bad
      else match string_body r with
           | Got body rest => Got (String c body) rest
           | Bad => Bad
           | Out => Out
           end
  end.

(** A number: [-]? int frac? exp?, kept as it is written. *)
Definition number (s : string) : res string :=
  let '(sign, s1) :=
    match s with
    | String c r => if Ascii.eqb c "-" then ("-", r) else (EmptyString, s)
    | EmptyString => (EmptyString, s)
    end in
  let '(int, s2) := span_digits s1 in
  match int with
  | EmptyString => Bad
  | String d more =>
      if Ascii.eqb d "0" && Path.nonempty more then Bad else
      let frac :=
        match s2 with
        | String c r =>
            if Ascii.eqb c "." then
              let '(ds, r') := span_digits r in
              match ds with
              | EmptyString => Bad
              | _ => Got ("." +:+ ds) r'
              end
            else Got EmptyString s2
        | EmptyString => Got EmptyString s2
        end in
      match frac with
      | Got f s3 =>
          match s3 with
          | String c r =>
              if Ascii.eqb c "e" || Ascii.eqb c "E" then
                let '(esign, r1) :=
                  match r with
                  | String x r0 =>
                      if Ascii.eqb x "+" || Ascii.eqb x "-"
                      then (String x EmptyString, r0) else (EmptyString, r)
                  | EmptyString => (EmptyString, r)
                  end in
                let '(ds, r2) := span_digits r1 in
                match ds with
                | EmptyString => Bad
                | _ => Got (sign +:+ int +:+ f +:+ String c esign +:+ ds) r2
                end
              else Got (sign +:+ int +:+ f) s3
          | EmptyString => Got (sign +:+ int +:+ f) s3
          end
      | Bad => Bad
      | Out => Out
      end
  end.

Definition keyword (k : string) (v : value) (s : string) : res value :=
  match Str.strip_prefix k s with
  | Some rest => Got v rest
  | None => Bad
  end.

(** [value fuel s]: a value at the front of [s], white space before it
    skipped.  [elements] reads the items of an array after the first and
    [members] the members of an object, both up to the closing bracket.
    Every call uses one unit of [fuel]; running out of it shows as [Out]. *)
Fixpoint value_at (fuel : nat) (s : string) : res value :=
  match fuel with
  | O => Out
  | S n =>
      match skip_ws s with
      | EmptyString => Bad
      | String c r =>
          if Ascii.eqb c dquote then
            match string_body r with
            | Got str rest => Got (Str str) rest
            | Bad => Bad
            | Out => Out
            end
          else if Ascii.eqb c "[" then
            match skip_ws r with
            | String d r' =>
                if Ascii.eqb d "]" then Got (Array []) r'
                else
                  match value_at n r with
                  | Got v rest =>
                      match elements n rest with
                      | Got vs rest' => Got (Array (v :: vs)) rest'
                      | Bad => Bad
                      | Out => Out
                      end
                  | Bad => Bad
                  | Out => Out
                  end
            | EmptyString => Bad
            end
          else if Ascii.eqb c "{" then
            match skip_ws r with
            | String d r' =>
                if Ascii.eqb d "}" then Got (Object []) r'
                else
                  match members n r with
                  | Got ms rest => Got (Object ms) rest
                  | Bad => Bad
                  | Out => Out
                  end
            | EmptyString => Bad
            end
          else if Ascii.eqb c "t" then keyword "true" (Bool true) (String c r)
          else if Ascii.eqb c "f" then keyword "false" (Bool false) (String c r)
          else if Ascii.eqb c "n" then keyword "null" Null (String c r)
          else
            match number (String c r) with
            | Got lit rest => Got (Number lit) rest
            | Bad => Bad
            | Out => Out
            end
      end
  end
with elements (fuel : nat) (s : string) : res (list value) :=
  match fuel with
  | O => Out
  | S n =>
      match skip_ws s with
      | String c r =>
          if Ascii.eqb c "]" then Got [] r
          else if Ascii.eqb c "," then
            match value_at n r with
            | Got v rest =>
                match elements n rest with
                | Got vs rest' => Got (v :: vs) rest'
                | Bad => Bad
                | Out => Out
                end
            | Bad => Bad
            | Out => Out
            end
          else Bad
      | EmptyString => Bad
      end
  end
with members (fuel : nat) (s : string) : res (list (string * value)) :=
  match fuel with
  | O => Out
  | S n =>
      match skip_ws s with
      | String c r =>
          if Ascii.eqb c dquote then
            match string_body r with
            | Got key rest =>
                match skip_ws rest with
                | String d r1 =>
                    if Ascii.eqb d ":" then
                      match value_at n r1 with
                      | Got v rest1 =>
                          match skip_ws rest1 with
                          | String e r2 =>
                              if Ascii.eqb e "}" then Got [(key, v)] r2
                              else if Ascii.eqb e "," then
                                match members n r2 with
                                | Got ms rest2 => Got ((key, v) :: ms) rest2
                                | Bad => Bad
                                | Out => Out
                                end
                              else Bad
                          | EmptyString => Bad
                          end
                      | Bad => Bad
                      | Out => Out
                      end
                    else Bad
                | EmptyString => Bad
                end
            | Bad => Bad
            | Out => Out
            end
          else Bad
      | EmptyString => Bad
      end
  end.

Definition parse (text : string) : parsed :=
  match value_at (2 * String.length text + 2) text with
  | Got v rest =>
      match skip_ws rest with
      | EmptyString => Parsed v
      | String _ _ => SyntaxError
      end
  | Bad => SyntaxError
  | Out => OutsideFragment
  end.

(** The value bound to [key] in an object: the last member of that name. *)
Fixpoint lookup_member (key : string) (ms : list (string * value)) : option value :=
  match ms with
  | [] => None
  | (k, v) :: rest =>
      match lookup_member key rest with
      | Some v' => Some v'
      | None => if String.eqb k key then Some v else None
      end
  end.

End JSON.

(** [s] between double quotes. *)
Definition quoted (s : string) : string :=
  String JSON.dquote EmptyString +:+ s +:+ String JSON.dquote EmptyString.

(** ** The file system *)

Module Fs.

(** A node of the file system: a regular file with its text, or a
    directory.  The file system maps the segments of an absolute path to
    the node there; the root, [[]], is always a directory. *)
Inductive node := File (data : string) | Dir.

Inductive errno := ENOENT | ENOTDIR | EISDIR | EEXIST.

Abbreviation tree := (gmap (list string) node).

(** The segments of a path given as a string.  The program only passes
    paths made by [path.join] and [path.resolve] from an absolute
    directory, which hold no [.] or [..] segment (lemmas
    [join_absolute_normal] and [locate_normal] below). *)
Definition locate (p : string) : list string :=
  List.filter Path.nonempty (Str.split Path.sep p).

Definition node_at (m : tree) (k : list string) : option node :=
  match k with
  | [] => Some Dir
  | _ => m !! k
  end.

Definition is_file (m : tree) (k : list string) : bool :=
  match node_at m k with
  | Some (File _) => true
  | _ => false
  end.

Definition is_dir (m : tree) (k : list string) : bool :=
  match node_at m k with
  | Some Dir => true
  | _ => false
  end.

(** The paths from [cur] (excluded) down to [cur ++ rest] (included). *)
Fixpoint chain_from (cur rest : list string) : list (list string) :=
  match rest with
  | [] => []
  | seg :: rest' => (cur ++ [seg])%list :: chain_from (cur ++ [seg])%list rest'
  end.

Definition chain (k : list string) : list (list string) := chain_from [] k.

Definition parent (k : list string) : list string := removelast k.

(** Why nothing is found at [k]: a regular file stands where a directory
    is needed, or an entry is missing. *)
Definition missing (m : tree) (k : list string) : errno :=
  if existsb (is_file m) (chain (parent k)) then ENOTDIR else ENOENT.

Definition existsSync (m : tree) (p : string) : bool :=
  match node_at m (locate p) with
  | Some Dir => true
  | Some (File _) => negb (Path.hasTrailingSeparator p)
  | None => false
  end.

Definition readFileSync (m : tree) (p : string) : errno + string :=
  match node_at m (locate p) with
  | Some (File data) =>
      if Path.hasTrailingSeparator p then inl ENOTDIR else inr data
  | Some Dir => inl EISDIR
  | None => inl (missing m (locate p))
  end.

(** [writeFileSync(p, data)]: the file is created in an existing
    directory, or its text replaced. *)
Definition writeFileSync (m : tree) (p : string) (data : string) : errno + tree :=
  let k := locate p in
  match node_at m k with
  | Some (File _) =>
      if Path.hasTrailingSeparator p then inl ENOTDIR
      else inr (<[k := File data]> m)
  | Some Dir => inl EISDIR
  | None =>
      match node_at m (parent k) with
      | Some Dir =>
          if Path.hasTrailingSeparator p then inl EISDIR
          else inr (<[k := File data]> m)
      | Some (File _) => inl ENOTDIR
      | None => inl (missing m k)
      end
  end.

(** [mkdirSync(p, { recursive: true })]: every missing directory down to
    [p] is created; directories that exist are left as they are.  A regular
    file on the way makes the call fail with nothing created.  The names
    that the real call refuses (a NUL character, a segment that is too
    long) are not modelled. *)
Definition mkdirSync (m : tree) (p : string) : errno + tree :=
  let k := locate p in
  if existsb (is_file m) (chain k) then
    inl (if is_file m k then EEXIST else ENOTDIR)
  else inr (foldr (fun d acc => <[d := Dir]> acc) m (chain k)).

(** [child_of dir k]: the name of [k] in [dir], when [k] is an entry of
    [dir]. *)
Fixpoint child_of (dir k : list string) : option string :=
  match dir, k with
  | [], [name] => Some name
  | d :: dir', c :: k' => if String.eqb d c then child_of dir' k' else None
  | _, _ => None
  end.

Definition entries (m : tree) (dir : list string) : gset string :=
  set_omap (child_of dir) (dom m).

(** [readdirSync(p)]: the names of the entries of the directory, in an
    order that depends on the names only. *)
Definition readdirSync (m : tree) (p : string) : errno + list string :=
  match node_at m (locate p) with
  | Some Dir => inr (elements (entries m (locate p)))
  | Some (File _) => inl ENOTDIR
  | None => inl (missing m (locate p))
  end.

End Fs.

(** ** The program *)

Inductive error :=
| FsError (e : Fs.errno)
| TypeError
| RegExpSyntaxError
| JSONSyntaxError.

(** A line written to the console: by [console.log], or by [console.error]
    with a text, or with a text and an error object. *)
Inductive line :=
| Log (text : string)
| Error (text : string)
| ErrorWith (text : string) (e : error).

(** The process: its working directory, the directory of the script
    ([__dirname]), both as the segments of an absolute path. *)
Record process := { cwd : list string; dirname : list string }.

Record state := { files : Fs.tree; console : list line }.

(** How a computation ends: with a value, with a thrown error, with
    [process.exit(code)], or at a construct that is not modelled. *)
Inductive result (A : Type) :=
| Ret (a : A)
| Throw (e : error)
| Exit (code : nat)
| Unmodelled.
Arguments Ret {A} a.
Arguments Throw {A} e.
Arguments Exit {A} code.
Arguments Unmodelled {A}.

Definition M (A : Type) : Type := state -> result A * state.

Definition ret {A} (a : A) : M A := fun st => (Ret a, st).

Definition bind {A B} (m : M A) (f : A -> M B) : M B :=
  fun st =>
    match m st with
    | (Ret a, st') => f a st'
    | (Throw e, st') => (Throw e, st')
    | (Exit c, st') => (Exit c, st')
    | (Unmodelled, st') => (Unmodelled, st')
    end.

Notation "'let*' x ':=' m 'in' k" := (bind m (fun x => k))
  (at level 10, x name, m at level 100, k at level 200).
Notation "m ';;' k" := (bind m (fun _ => k))
  (at level 100, k at level 200, right associativity).

Definition throw {A} (e : error) : M A := fun st => (Throw e, st).
Definition exit {A} (code : nat) : M A := fun st => (Exit code, st).
Definition unmodelled {A} : M A := fun st => (Unmodelled, st).

(** [try { m } catch (error) { h error }] *)
Definition try_catch {A} (m : M A) (h : error -> M A) : M A :=
  fun st =>
    match m st with
    | (Throw e, st') => h e st'
    | other => other
    end.

Definition print (l : line) : M unit :=
  fun st => (Ret tt, {| files := files st; console := (console st ++ [l])%list |}).

(** A call of [fs] that reads. *)
Definition fs_read {A} (f : Fs.tree -> Fs.errno + A) : M A :=
  fun st =>
    match f (files st) with
    | inr a => (Ret a, st)
    | inl e => (Throw (FsError e), st)
    end.

(** A call of [fs] that writes. *)
Definition fs_write (f : Fs.tree -> Fs.errno + Fs.tree) : M unit :=
  fun st =>
    match f (files st) with
    | inr m => (Ret tt, {| files := m; console := console st |})
    | inl e => (Throw (FsError e), st)
    end.

Definition fs_existsSync (p : string) : M bool :=
  fun st => (Ret (Fs.existsSync (files st) p), st).
Definition fs_readFileSync (p : string) : M string :=
  fs_read (fun m => Fs.readFileSync m p).
Definition fs_readdirSync (p : string) : M (list string) :=
  fs_read (fun m => Fs.readdirSync m p).
Definition fs_mkdirSync (p : string) : M unit :=
  fs_write (fun m => Fs.mkdirSync m p).
Definition fs_writeFileSync (p data : string) : M unit :=
  fs_write (fun m => Fs.writeFileSync m p data).

(** [JSON.parse(text)], throwing on a syntax error. *)
Definition JSON_parse (text : string) : M JSON.value :=
  match JSON.parse text with
  | JSON.Parsed v => ret v
  | JSON.SyntaxError => throw JSONSyntaxError
  | JSON.OutsideFragment => unmodelled
  end.

(** A JavaScript value: [undefined], or a value that JSON can give. *)
Inductive jsval := Undefined | Val (v : JSON.value).

(** [object.key] for a value read from JSON. *)
Definition get (object : JSON.value) (key : string) : M jsval :=
  match object with
  | JSON.Null => throw TypeError
  | JSON.Object ms =>
      ret (match JSON.lookup_member key ms with
           | Some v => Val v
           | None => Undefined
           end)
  | _ => ret Undefined
  end.

(** [path.join] accepts strings only. *)
Fixpoint strings (args : list jsval) : option (list string) :=
  match args with
  | [] => Some []
  | Val (JSON.Str s) :: rest =>
      match strings rest with
      | Some l => Some (s :: l)
      | None => None
      end
  | _ => None
  end.

Definition path_join (args : list jsval) : M string :=
  match strings args with
  | Some l => ret (Path.join l)
  | None => throw TypeError
  end.

(** The placeholder as the pattern of a replacement.  A value that is not a
    string would be converted to one; that conversion is not modelled. *)
Definition pattern_of (placeholder : jsval) : M string :=
  match placeholder with
  | Val (JSON.Str s) => ret s
  | _ => unmodelled
  end.

(** [new RegExp(pattern, 'g')] *)
Definition new_RegExp (pattern : string) : M RegExp.regex :=
  match RegExp.parse pattern with
  | RegExp.Compiled r => ret r
  | RegExp.SyntaxError => throw RegExpSyntaxError
  | RegExp.OutsideFragment => unmodelled
  end.

Definition bang : string := String "226" (String "157" (String "140" EmptyString)).

Definition nl : string := String "010" EmptyString.

(** The text of the template literal printed when the configuration file is
    missing. *)
Definition configNotFound : string :=
  nl +:+ "  " +:+ bang +:+ " Config file not found!" +:+ nl
  +:+ "  Please create a " +:+ quoted "cg.config.json"
  +:+ " in your project root directory and add the following config:" +:+ nl
  +:+ "  " +:+ nl
  +:+ "  {" +:+ nl
  +:+ "    " +:+ quoted "COMPONENTS_DIR" +:+ ": "
  +:+ quoted "the path to your components folder, e.g., src/components" +:+ "," +:+ nl
  +:+ "    " +:+ quoted "TEMPLATE_DIR" +:+ ": " +:+ quoted "the path to your template folder"
  +:+ "," +:+ nl
  +:+ "    COMPONENT_NAME_PLACEHOLDER: "
  +:+ quoted "The placeholder to be replaced with the actual component name in the template"
  +:+ nl
  +:+ "  }" +:+ nl
  +:+ nl
  +:+ "  Example:" +:+ nl
  +:+ "    " +:+ quoted "COMPONENTS_DIR" +:+ ": " +:+ quoted "./src/components" +:+ "," +:+ nl
  +:+ "    " +:+ quoted "TEMPLATE_DIR" +:+ ": " +:+ quoted "./templates" +:+ "," +:+ nl
  +:+ "    COMPONENT_NAME_PLACEHOLDER: " +:+ quoted "COMPONENT_NAME" +:+ nl.

Section Program.

Variable proc : process.

Definition process_cwd : string := Path.render (cwd proc).
Definition __dirname : string := Path.render (dirname proc).

Definition configPath : string :=
  Path.resolve process_cwd [process_cwd; "cg.config.json"].

Definition readConfig : M JSON.value :=
  let* found := fs_existsSync configPath in
  (if negb found then
     print (Error configNotFound) ;;
     exit 1
   else ret tt) ;;
  try_catch
    (let* configFile := fs_readFileSync configPath in
     JSON_parse configFile)
    (fun error =>
       print (ErrorWith "Error reading the config file:" error) ;;
       exit 1).

(** The callback of [templateFiles.forEach]. *)
Definition eachFile (componentDir templateDir : string) (placeholder : jsval)
           (componentName : string) (file : string) : M unit :=
  let templateFilePath := Path.join [templateDir; file] in
  let* pattern := pattern_of placeholder in
  let componentFilePath :=
    Path.join [componentDir; JsString.replace file pattern componentName] in
  let* templateContent := fs_readFileSync templateFilePath in
  let* re := new_RegExp pattern in
  let componentContent := RegExp.replace templateContent re componentName in
  fs_writeFileSync componentFilePath componentContent.

Fixpoint forEach {A} (l : list A) (f : A -> M unit) : M unit :=
  match l with
  | [] => ret tt
  | x :: rest => f x ;; forEach rest f
  end.

Definition createComponent (componentName : string) : M unit :=
  let* config := readConfig in
  let* COMPONENTS_DIR := get config "COMPONENTS_DIR" in
  let* componentDir :=
    path_join [Val (JSON.Str __dirname); COMPONENTS_DIR; Val (JSON.Str componentName)] in
  let* TEMPLATE_DIR := get config "TEMPLATE_DIR" in
  let* templateDir := path_join [Val (JSON.Str __dirname); TEMPLATE_DIR] in
  let* placeholder := get config "COMPONENT_NAME_PLACEHOLDER" in
  fs_mkdirSync componentDir ;;
  let* templateFiles := fs_readdirSync templateDir in
  forEach templateFiles
    (eachFile componentDir templateDir placeholder componentName) ;;
  print (Log ("Component " +:+ componentName +:+ " created/updated successfully!")).

(** The run of the script: the question is asked and the answer passed to
    [createComponent]. *)
Definition main (answer : string) : M unit :=
  print (Log "Enter the component name: ") ;;
  createComponent answer.

End Program.

(** How a run of the script ends. *)
Inductive outcome :=
| Completed
| Exited (code : nat)
| Uncaught (e : error)
| OutsideModel.

Definition outcome_of {A} (r : result A) : outcome :=
  match r with
  | Ret _ => Completed
  | Throw e => Uncaught e
  | Exit c => Exited c
  | Unmodelled => OutsideModel
  end.

Definition run (proc : process) (answer : string) (st : state) : outcome * state :=
  let '(r, st') := main proc answer st in (outcome_of r, st').

(** Equality of states and outcomes is decidable, which lets runs on
    concrete projects be compared by computation. *)
#[global] Instance errno_eq_dec : EqDecision Fs.errno.
Proof. solve_decision. Defined.
#[global] Instance node_eq_dec : EqDecision Fs.node.
Proof. solve_decision. Defined.
#[global] Instance error_eq_dec : EqDecision error.
Proof. solve_decision. Defined.
#[global] Instance line_eq_dec : EqDecision line.
Proof. solve_decision. Defined.
#[global] Instance state_eq_dec : EqDecision state.
Proof. solve_decision. Defined.
#[global] Instance result_eq_dec {A} `{EqDecision A} : EqDecision (result A).
Proof. solve_decision. Defined.
#[global] Instance outcome_eq_dec : EqDecision outcome.
Proof. solve_decision. Defined.

(** ** The steps of [createComponent], named

    [config_fields] is what the script finds in its configuration file when
    that holds an object with the two directories as strings; [materialize]
    is [createComponent] from [mkdirSync] on. *)

Definition field (key : string) (members : list (string * JSON.value)) : jsval :=
  match JSON.lookup_member key members with
  | Some v => Val v
  | None => Undefined
  end.

Definition config_fields (proc : process) (st : state) : option (string * string * jsval) :=
  match Fs.readFileSync (files st) (configPath proc) with
  | inr text =>
      match JSON.parse text with
      | JSON.Parsed (JSON.Object members) =>
          match field "COMPONENTS_DIR" members, field "TEMPLATE_DIR" members with
          | Val (JSON.Str c), Val (JSON.Str t) =>
              Some (c, t, field "COMPONENT_NAME_PLACEHOLDER" members)
          | _, _ => None
          end
      | _ => None
      end
  | inl _ => None
  end.

Definition componentDir (proc : process) (COMPONENTS_DIR componentName : string) : string :=
  Path.join [__dirname proc; COMPONENTS_DIR; componentName].

Definition templateDir (proc : process) (TEMPLATE_DIR : string) : string :=
  Path.join [__dirname proc; TEMPLATE_DIR].

Definition success (componentName : string) : line :=
  Log ("Component " +:+ componentName +:+ " created/updated successfully!").

Definition materialize (proc : process) (COMPONENTS_DIR TEMPLATE_DIR : string)
           (placeholder : jsval) (componentName : string) : M unit :=
  fs_mkdirSync (componentDir proc COMPONENTS_DIR componentName) ;;
  let* templateFiles := fs_readdirSync (templateDir proc TEMPLATE_DIR) in
  forEach templateFiles
    (eachFile (componentDir proc COMPONENTS_DIR componentName)
              (templateDir proc TEMPLATE_DIR) placeholder componentName) ;;
  print (success componentName).

(** The path a template entry is read from, and the path its copy is
    written to. *)
Definition templateFilePath (proc : process) (TEMPLATE_DIR file : string) : string :=
  Path.join [templateDir proc TEMPLATE_DIR; file].

Definition componentFilePath (proc : process) (COMPONENTS_DIR placeholder componentName file : string)
  : string :=
  Path.join [componentDir proc COMPONENTS_DIR componentName;
             JsString.replace file placeholder componentName].

Definition prompt : line := Log "Enter the component name: ".

(** ** Notions used in the statements *)

(** The state after the question has been printed. *)
Definition prompted (st : state) : state :=
  {| files := files st; console := (console st ++ [prompt])%list |}.

(** A pattern none of whose characters has a meaning in a regular
    expression, and the expression it is compiled to. *)
Fixpoint plain_pattern (p : string) : bool :=
  match p with
  | EmptyString => true
  | String c r => negb (RegExp.is_syntax_char c) && plain_pattern r
  end.

Fixpoint literal (p : string) : RegExp.regex :=
  match p with
  | EmptyString => []
  | String c r => RegExp.TAtom (RegExp.AChar c) RegExp.QOne :: literal r
  end.

(** The name of a directory entry: not empty, not [.] or [..], and without
    a separator. *)
Definition plain_name (x : string) : bool :=
  Path.nonempty x && negb (String.eqb x ".") && negb (String.eqb x "..")
  && negb (Str.has_char Path.sep x).

(** A normalised absolute path: a slash, names with slashes between them,
    and possibly a slash after the last name. *)
Definition normal_abs (s : string) (segs : list string) : Prop :=
  Forall (fun x => plain_name x = true) segs
  /\ (s = Path.render segs \/ segs <> [] /\ s = Path.render segs +:+ "/").

(** The state of the file system in which every template entry can be
    copied into the component directory under its own name. *)
Definition ready (td p : string) (csegs templateFiles : list string) (m : Fs.tree)
  : Prop :=
  Fs.is_dir m csegs = true
  /\ forall file, In file templateFiles ->
       plain_name file = true
       /\ Str.contains p file = false
       /\ Fs.is_file m (Fs.locate (Path.join [td; file])) = true
       /\ Path.hasTrailingSeparator (Path.join [td; file]) = false
       /\ Fs.is_dir m (csegs ++ [file]) = false.

(** [writeFileSync] can create or replace the file at [p]: the path has a
    last segment and no slash after it, the directory it is in exists, and
    no directory stands at the path itself. *)
Definition can_write (m : Fs.tree) (p : string) : bool :=
  match Fs.locate p with [] => false | _ => true end
  && negb (Path.hasTrailingSeparator p)
  && Fs.is_dir m (Fs.parent (Fs.locate p))
  && negb (Fs.is_dir m (Fs.locate p)).

(** A line written by [console.error]. *)
Definition is_error_line (l : line) : bool :=
  match l with
  | Log _ => false
  | Error _ | ErrorWith _ _ => true
  end.

(** A node of the same kind as [n]: a directory for a directory, a regular
    file, with whatever text, for a regular file. *)
Definition same_kind (n : Fs.node) (o : option Fs.node) : Prop :=
  match n with
  | Fs.Dir => o = Some Fs.Dir
  | Fs.File _ => exists data, o = Some (Fs.File data)
  end.

(** [s.replace(new RegExp(pattern, 'g'), replacement)], when the pattern is in
    the fragment. *)
Definition replaced (s pattern replacement : string) : option string :=
  match RegExp.parse pattern with
  | RegExp.Compiled r => Some (RegExp.replace s r replacement)
  | _ => None
  end.

(** ** A project to run the script in

    The directory [/proj] holds the script, the configuration file with the
    given placeholder, and the directory [template] with the given files
    (name and text). *)

Definition configText (placeholder : string) : string :=
  "{" +:+ quoted "COMPONENTS_DIR" +:+ ":" +:+ quoted "./src/components" +:+ ","
      +:+ quoted "TEMPLATE_DIR" +:+ ":" +:+ quoted "./template" +:+ ","
      +:+ quoted "COMPONENT_NAME_PLACEHOLDER" +:+ ":" +:+ quoted placeholder +:+ "}".

Definition proj : process := {| cwd := ["proj"]; dirname := ["proj"] |}.

Definition project_with (config : string) (templates : list (string * string)) : state :=
  {| files :=
       list_to_map
         ([ (["proj"], Fs.Dir);
            (["proj"; "cg.config.json"], Fs.File config);
            (["proj"; "template"], Fs.Dir) ]
          ++ List.map (fun t => (["proj"; "template"; fst t], Fs.File (snd t))) templates)%list;
     console := [] |}.

Definition project (placeholder : string) (templates : list (string * string)) : state :=
  project_with (configText placeholder) templates.

(** The same directory without the configuration file. *)
Definition unconfigured : state :=
  {| files := list_to_map [ (["proj"], Fs.Dir); (["proj"; "template"], Fs.Dir) ];
     console := [] |}.

(** A project whose component directory [Button] exists, with a file of its
    own and an older copy of the template. *)
Definition project_again : state :=
  {| files :=
       list_to_map
         [ (["proj"; "src"], Fs.Dir);
           (["proj"; "src"; "components"], Fs.Dir);
           (["proj"; "src"; "components"; "Button"], Fs.Dir);
           (["proj"; "src"; "components"; "Button"; "notes.md"], Fs.File "keep me");
           (["proj"; "src"; "components"; "Button"; "Button.js"], Fs.File "old") ]
       ∪ files (project "COMPONENT_NAME"
                  [("COMPONENT_NAME.js", "export const COMPONENT_NAME = () => {};")]);
     console := [] |}.

(** A project whose components directory is the project directory and
    whose template directory is [x], configured with the empty placeholder:
    for the component name [x] the component directory is the template
    directory. *)
Definition overlappingConfig : string :=
  "{" +:+ quoted "COMPONENTS_DIR" +:+ ":" +:+ quoted "." +:+ ","
      +:+ quoted "TEMPLATE_DIR" +:+ ":" +:+ quoted "./x" +:+ ","
      +:+ quoted "COMPONENT_NAME_PLACEHOLDER" +:+ ":" +:+ quoted "" +:+ "}".

Definition overlapping_with (x : list (list string * Fs.node)) : state :=
  {| files :=
       list_to_map
         ([ (["proj"], Fs.Dir); (["proj"; "cg.config.json"], Fs.File overlappingConfig) ]
          ++ x)%list;
     console := [] |}.

Definition overlapping : state :=
  overlapping_with [ (["proj"; "x"], Fs.Dir);
                     (["proj"; "x"; "a"], Fs.File "1");
                     (["proj"; "x"; "xa"], Fs.File "2") ].

(** * Properties *)

(** ** The library functions on examples *)

Example replace_first_only :
  JsString.replace "a-a-a" "a" "b" = "b-a-a"
  /\ JsString.replace "abc" "x" "y" = "abc"
  /\ JsString.replace "abc" "" "y" = "yabc"
  /\ JsString.replace "abc" "b" "[$&|$`|$'|$$|$1|$]" = "a[b|a|c|$|$1|$]c".
Proof. repeat split; reflexivity. Qed.

Example regexp_examples :
  RegExp.parse "b*" = RegExp.Compiled [RegExp.TAtom (RegExp.AChar "b") RegExp.QStar]
  /\ RegExp.parse "a**" = RegExp.SyntaxError
  /\ RegExp.parse "^*" = RegExp.SyntaxError
  /\ RegExp.parse "a|b" = RegExp.OutsideFragment
  /\ RegExp.parse "^a.\.$"
     = RegExp.Compiled [RegExp.TBol; RegExp.TAtom (RegExp.AChar "a") RegExp.QOne;
                        RegExp.TAtom RegExp.AAny RegExp.QOne;
                        RegExp.TAtom (RegExp.AChar ".") RegExp.QOne; RegExp.TEol]
  /\ replaced "abc" "b*" "X" = Some "XaXXcX"
  /\ replaced "aXbXc" "X" "-" = Some "a-b-c"
  /\ replaced "abc abd" "ab." "[$&]" = Some "[abc] [abd]"
  /\ replaced "abcabc" "^a" "X" = Some "Xbcabc"
  /\ replaced "ab" "$" "!" = Some "ab!"
  /\ replaced "aab" "a+b?" "X" = Some "X"
  /\ replaced "baaac" "a*a" "X" = Some "bXc"
  /\ replaced "abc" "b" "[$`|$']" = Some "a[a|c]c"
  /\ replaced "a.c abc" "a\.c" "X" = Some "X abc"
  /\ replaced "aaa" "a?" "X" = Some "XXXX"
  /\ replaced "ab" "" "-" = Some "-a-b-".
Proof. repeat split; reflexivity. Qed.

Example path_examples :
  Path.join ["/home/u/proj"; "./src/components"; "Button"]
  = "/home/u/proj/src/components/Button"
  /\ Path.join ["/home/u/proj"; "./template/"] = "/home/u/proj/template/"
  /\ Path.join ["/a/b"; "../../../c"; "./d"] = "/c/d"
  /\ Path.join ["a"; "../../c"] = "../c"
  /\ Path.resolve "/home/u/proj" ["/home/u/proj"; "cg.config.json"]
     = "/home/u/proj/cg.config.json".
Proof. repeat split; reflexivity. Qed.

Example json_examples :
  JSON.parse ("{" +:+ quoted "A" +:+ ": [1, -2.5e+3, true, null], " +:+ quoted "B" +:+ ":"
              +:+ quoted "x\ny" +:+ " }")
  = JSON.Parsed (JSON.Object
      [("A", JSON.Array [JSON.Number "1"; JSON.Number "-2.5e+3"; JSON.Bool true; JSON.Null]);
       ("B", JSON.Str (String "x" (String "010" "y")))])
  /\ JSON.parse "{oops" = JSON.SyntaxError
  /\ JSON.parse "[1,]" = JSON.SyntaxError
  /\ JSON.parse "01" = JSON.SyntaxError
  /\ JSON.parse "" = JSON.SyntaxError
  /\ JSON.parse " 12 " = JSON.Parsed (JSON.Number "12").
Proof. repeat split; reflexivity. Qed.

(** ** Runs on concrete projects *)

(** C5: with the configuration of the README and the template
    [COMPONENT_NAME.js], the answer [Button] gives the file
    [src/components/Button/Button.js] with the placeholder replaced, in a
    project without components and in one where an older [Button.js] is
    there. *)
Theorem scenario_Button :
  let st := project "COMPONENT_NAME"
              [("COMPONENT_NAME.js", "export const COMPONENT_NAME = () => {};")] in
  configText "COMPONENT_NAME"
  = "{" +:+ quoted "COMPONENTS_DIR" +:+ ":" +:+ quoted "./src/components" +:+ ","
        +:+ quoted "TEMPLATE_DIR" +:+ ":" +:+ quoted "./template" +:+ ","
        +:+ quoted "COMPONENT_NAME_PLACEHOLDER" +:+ ":" +:+ quoted "COMPONENT_NAME" +:+ "}"
  /\ fst (run proj "Button" st) = Completed
  /\ Fs.readFileSync (files (snd (run proj "Button" st)))
       "/proj/src/components/Button/Button.js"
     = inr "export const Button = () => {};"
  /\ Fs.readdirSync (files (snd (run proj "Button" st))) "/proj/src/components/Button"
     = inr ["Button.js"]
  /\ fst (run proj "Button" project_again) = Completed
  /\ Fs.readFileSync (files (snd (run proj "Button" project_again)))
       "/proj/src/components/Button/Button.js"
     = inr "export const Button = () => {};".
Proof. vm_compute. repeat split; reflexivity. Qed.

(** ** The steps of a run *)

Lemma readFileSync_exists m p text :
  Fs.readFileSync m p = inr text -> Fs.existsSync m p = true.
Proof.
  unfold Fs.readFileSync, Fs.existsSync.
  destruct (Fs.node_at m (Fs.locate p)) as [[data|]|]; try discriminate.
  destruct (Path.hasTrailingSeparator p); [discriminate | reflexivity].
Qed.

(** When the configuration file is missing, [readConfig] prints the help
    text and exits with status 1. *)
Lemma readConfig_missing proc st :
  Fs.existsSync (files st) (configPath proc) = false ->
  readConfig proc st
  = (Exit 1, {| files := files st; console := (console st ++ [Error configNotFound])%list |}).
Proof.
  intros H. unfold readConfig, bind, fs_existsSync. rewrite H. reflexivity.
Qed.

(** When its text is not JSON, [readConfig] prints the error and exits with
    status 1. *)
Lemma readConfig_malformed proc st text :
  Fs.readFileSync (files st) (configPath proc) = inr text ->
  JSON.parse text = JSON.SyntaxError ->
  readConfig proc st
  = (Exit 1, {| files := files st;
                console := (console st ++
                  [ErrorWith "Error reading the config file:" JSONSyntaxError])%list |}).
Proof.
  intros Hr Hp. unfold readConfig, bind, fs_existsSync.
  rewrite (readFileSync_exists _ _ _ Hr). cbn.
  unfold try_catch, bind, fs_readFileSync, fs_read. rewrite Hr.
  unfold JSON_parse. rewrite Hp. reflexivity.
Qed.

Lemma createComponent_configured proc st c t placeholder name :
  config_fields proc st = Some (c, t, placeholder) ->
  createComponent proc name st = materialize proc c t placeholder name st.
Proof.
  unfold config_fields. intros H.
  destruct (Fs.readFileSync (files st) (configPath proc)) as [|text] eqn:Hr;
    [discriminate|].
  destruct (JSON.parse text) as [[| | | | |members]| |] eqn:Hp; try discriminate.
  destruct (field "COMPONENTS_DIR" members) as [|[| | |c'| |]] eqn:Hc; try discriminate.
  destruct (field "TEMPLATE_DIR" members) as [|[| | |t'| |]] eqn:Ht; try discriminate.
  injection H as -> -> <-.
  unfold createComponent, readConfig, bind at 1 2 3, fs_existsSync.
  rewrite (readFileSync_exists _ _ _ Hr). cbn [negb].
  unfold ret at 1. unfold try_catch, bind at 1, fs_readFileSync at 1, fs_read at 1.
  rewrite Hr. unfold JSON_parse. rewrite Hp. unfold ret at 1.
  unfold bind at 1, get at 1, ret at 1.
  fold (field "COMPONENTS_DIR" members). rewrite Hc.
  unfold bind at 1, path_join at 1. cbn [strings]. unfold ret at 1.
  unfold bind at 1, get at 1, ret at 1.
  fold (field "TEMPLATE_DIR" members). rewrite Ht.
  unfold bind at 1, path_join at 1. cbn [strings]. unfold ret at 1.
  unfold bind at 1, get at 1, ret at 1.
  fold (field "COMPONENT_NAME_PLACEHOLDER" members).
  reflexivity.
Qed.

Lemma run_createComponent proc answer st :
  run proc answer st
  = (outcome_of (fst (createComponent proc answer (prompted st))),
     snd (createComponent proc answer (prompted st))).
Proof.
  unfold run, main, bind at 1, print. cbn [files console].
  fold prompt. fold (prompted st).
  destruct (createComponent proc answer (prompted st)) as [r st']. reflexivity.
Qed.

(** ** Configuration errors *)

Lemma createComponent_exit proc name st code st' :
  readConfig proc st = (Exit code, st') ->
  createComponent proc name st = (Exit code, st').
Proof.
  intros H. unfold createComponent, bind at 1. rewrite H. reflexivity.
Qed.

(** C3: when the configuration file is absent, or is there with a text that
    is not JSON, the run ends with exit status 1, the last line on the
    console is the help text or the parse error, and the file system is as it
    was before the run. *)
Theorem config_failure_exits proc answer st :
  (Fs.existsSync (files st) (configPath proc) = false
   \/ exists text, Fs.readFileSync (files st) (configPath proc) = inr text
                   /\ JSON.parse text = JSON.SyntaxError) ->
  exists message,
    run proc answer st
    = (Exited 1, {| files := files st;
                    console := (console st ++ [prompt; message])%list |})
    /\ (Fs.existsSync (files st) (configPath proc) = false ->
        message = Error configNotFound)
    /\ (Fs.existsSync (files st) (configPath proc) = true ->
        message = ErrorWith "Error reading the config file:" JSONSyntaxError).
Proof.
  intros [Hmiss | (text & Hr & Hp)]; rewrite run_createComponent.
  - exists (Error configNotFound).
    rewrite (createComponent_exit _ _ _ _ _ (readConfig_missing proc (prompted st) Hmiss)).
    cbn [fst snd outcome_of prompted files console].
    rewrite <- app_assoc.
    split; [reflexivity | split; intros; [reflexivity | congruence]].
  - exists (ErrorWith "Error reading the config file:" JSONSyntaxError).
    rewrite (createComponent_exit _ _ _ _ _
               (readConfig_malformed proc (prompted st) text Hr Hp)).
    cbn [fst snd outcome_of prompted files console].
    rewrite <- app_assoc. apply readFileSync_exists in Hr.
    split; [reflexivity | split; intros; [congruence | reflexivity]].
Qed.

Lemma config_failure_exits_witness :
  (exists message,
     run proj "Button" unconfigured
     = (Exited 1, {| files := files unconfigured; console := [prompt; message] |})
     /\ (Fs.existsSync (files unconfigured) (configPath proj) = false ->
         message = Error configNotFound)
     /\ (Fs.existsSync (files unconfigured) (configPath proj) = true ->
         message = ErrorWith "Error reading the config file:" JSONSyntaxError))
  /\ (exists message,
     run proj "Button" (project_with "{oops" [])
     = (Exited 1, {| files := files (project_with "{oops" []);
                     console := [prompt; message] |})
     /\ (Fs.existsSync (files (project_with "{oops" [])) (configPath proj) = false ->
         message = Error configNotFound)
     /\ (Fs.existsSync (files (project_with "{oops" [])) (configPath proj) = true ->
         message = ErrorWith "Error reading the config file:" JSONSyntaxError)).
Proof.
  split.
  - apply (config_failure_exits proj "Button" unconfigured).
    left. vm_compute. reflexivity.
  - apply (config_failure_exits proj "Button" (project_with "{oops" [])).
    right. eexists. split; vm_compute; reflexivity.
Defined.

(** ** The file system calls *)

Lemma chain_from_nonempty cur rest k : In k (Fs.chain_from cur rest) -> k <> [].
Proof.
  revert cur. induction rest as [|seg rest IH]; intros cur; cbn; [tauto|].
  intros [<- | H]; [destruct cur; discriminate | eauto].
Qed.

Lemma chain_from_last cur rest :
  rest <> [] -> In (cur ++ rest)%list (Fs.chain_from cur rest).
Proof.
  revert cur. induction rest as [|seg rest IH]; intros cur Hne; [congruence|].
  cbn. destruct rest as [|seg' rest'].
  - left. reflexivity.
  - right. specialize (IH (cur ++ [seg])%list). rewrite <- app_assoc in IH.
    apply IH. discriminate.
Qed.

Lemma chain_self k : k <> [] -> In k (Fs.chain k).
Proof. apply (chain_from_last []). Qed.

Lemma lookup_make_dirs (m : Fs.tree) (l : list (list string)) (k : list string) :
  foldr (fun d acc => <[d := Fs.Dir]> acc) m l !! k
  = if decide (k ∈ l) then Some Fs.Dir else m !! k.
Proof.
  induction l as [|d l IH]; cbn [foldr].
  - destruct (decide (k ∈ [])) as [i|]; [inversion i | reflexivity].
  - destruct (decide (d = k)) as [->|Hne].
    + rewrite lookup_insert_eq. rewrite decide_True by (left). reflexivity.
    + rewrite lookup_insert_ne by exact Hne. rewrite IH.
      destruct (decide (k ∈ l)) as [i|n].
      * rewrite decide_True by (right; exact i). reflexivity.
      * rewrite decide_False; [reflexivity|].
        intros Hin. apply elem_of_cons in Hin as [->|]; [congruence | contradiction].
Qed.

Lemma node_at_lookup (m : Fs.tree) k : k <> [] -> Fs.node_at m k = m !! k.
Proof. destruct k; [congruence | reflexivity]. Qed.

Lemma mkdirSync_inr m p m' :
  Fs.mkdirSync m p = inr m' ->
  existsb (Fs.is_file m) (Fs.chain (Fs.locate p)) = false
  /\ m' = foldr (fun d acc => <[d := Fs.Dir]> acc) m (Fs.chain (Fs.locate p)).
Proof.
  unfold Fs.mkdirSync.
  destruct (existsb (Fs.is_file m) (Fs.chain (Fs.locate p))); [discriminate|].
  intros [= <-]. split; reflexivity.
Qed.

(** [mkdirSync] leaves every node that exists as it is. *)
Lemma mkdirSync_keeps m p m' k n :
  Fs.mkdirSync m p = inr m' -> m !! k = Some n -> m' !! k = Some n.
Proof.
  intros H Hk. apply mkdirSync_inr in H as [Hex ->].
  rewrite lookup_make_dirs. destruct (decide (k ∈ Fs.chain (Fs.locate p))) as [i|]; [|exact Hk].
  apply list_elem_of_In in i.
  destruct n as [data|]; [|reflexivity].
  exfalso. assert (existsb (Fs.is_file m) (Fs.chain (Fs.locate p)) = true); [|congruence].
  apply existsb_exists. exists k. split; [exact i|].
  unfold Fs.is_file. rewrite node_at_lookup by (eapply chain_from_nonempty; exact i).
  rewrite Hk. reflexivity.
Qed.

(** It only makes directories. *)
Lemma mkdirSync_lookup m p m' k :
  Fs.mkdirSync m p = inr m' -> m' !! k = m !! k \/ m' !! k = Some Fs.Dir.
Proof.
  intros H. apply mkdirSync_inr in H as [_ ->]. rewrite lookup_make_dirs.
  destruct (decide _); [right | left]; reflexivity.
Qed.

(** After it the directory and all the directories above it exist. *)
Lemma mkdirSync_chain m p m' :
  Fs.mkdirSync m p = inr m' ->
  forallb (Fs.is_dir m') (Fs.chain (Fs.locate p)) = true.
Proof.
  intros H. apply mkdirSync_inr in H as [_ ->].
  apply forallb_forall. intros k Hk. unfold Fs.is_dir.
  rewrite node_at_lookup by (eapply chain_from_nonempty; exact Hk).
  rewrite lookup_make_dirs. apply list_elem_of_In in Hk.
  destruct (decide _); [reflexivity | contradiction].
Qed.

Lemma mkdirSync_is_dir m p m' :
  Fs.mkdirSync m p = inr m' -> Fs.is_dir m' (Fs.locate p) = true.
Proof.
  intros H. destruct (Fs.locate p) as [|seg k] eqn:E; [reflexivity|].
  pose proof (mkdirSync_chain _ _ _ H) as Hc. rewrite E in Hc.
  rewrite forallb_forall in Hc. apply Hc. apply chain_self. discriminate.
Qed.

(** When the directories are there already, it changes nothing. *)
Lemma mkdirSync_existing m p :
  forallb (Fs.is_dir m) (Fs.chain (Fs.locate p)) = true ->
  Fs.mkdirSync m p = inr m.
Proof.
  intros H. rewrite forallb_forall in H. unfold Fs.mkdirSync.
  assert (Hd : forall k, In k (Fs.chain (Fs.locate p)) -> m !! k = Some Fs.Dir).
  { intros k Hk. specialize (H k Hk). unfold Fs.is_dir in H.
    rewrite node_at_lookup in H by (eapply chain_from_nonempty; exact Hk).
    destruct (m !! k) as [[|]|]; congruence. }
  destruct (existsb (Fs.is_file m) (Fs.chain (Fs.locate p))) eqn:E.
  - apply existsb_exists in E as (k & Hk & Hf). specialize (H k Hk).
    unfold Fs.is_file in Hf. unfold Fs.is_dir in H.
    destruct (Fs.node_at m k) as [[|]|]; discriminate.
  - f_equal. apply map_eq. intros k. rewrite lookup_make_dirs.
    destruct (decide _) as [i|]; [|reflexivity]. symmetry. apply Hd.
    apply list_elem_of_In. exact i.
Qed.

Lemma writeFileSync_inr m p data m' :
  Fs.writeFileSync m p data = inr m' ->
  m' = <[Fs.locate p := Fs.File data]> m
  /\ Fs.locate p <> []
  /\ Path.hasTrailingSeparator p = false
  /\ (Fs.is_file m (Fs.locate p) = true
      \/ m !! Fs.locate p = None /\ Fs.is_dir m (Fs.parent (Fs.locate p)) = true).
Proof.
  unfold Fs.writeFileSync, Fs.is_file, Fs.is_dir.
  destruct (Fs.locate p) as [|seg k] eqn:E; [discriminate|].
  rewrite !node_at_lookup by discriminate.
  destruct (m !! (seg :: k)) as [[old|]|].
  - destruct (Path.hasTrailingSeparator p); [discriminate|].
    intros [= <-]. repeat split; [discriminate | left; reflexivity].
  - discriminate.
  - destruct (Fs.node_at m (Fs.parent (seg :: k))) as [[|]|]; try discriminate.
    destruct (Path.hasTrailingSeparator p); [discriminate|].
    intros [= <-]. repeat split; [discriminate | right; split; reflexivity].
Qed.

(** ** The callback and the loop *)

(** The callback, for a placeholder that is a string: the template file is
    read, the pattern compiled, and the copy written. *)
Lemma eachFile_unfold cd td p name file st :
  eachFile cd td (Val (JSON.Str p)) name file st
  = match Fs.readFileSync (files st) (Path.join [td; file]) with
    | inl e => (Throw (FsError e), st)
    | inr content =>
        match RegExp.parse p with
        | RegExp.Compiled re =>
            match Fs.writeFileSync (files st)
                    (Path.join [cd; JsString.replace file p name])
                    (RegExp.replace content re name) with
            | inr m => (Ret tt, {| files := m; console := console st |})
            | inl e => (Throw (FsError e), st)
            end
        | RegExp.SyntaxError => (Throw RegExpSyntaxError, st)
        | RegExp.OutsideFragment => (Unmodelled, st)
        end
    end.
Proof.
  unfold eachFile, pattern_of, bind, ret, fs_readFileSync, fs_read.
  destruct (Fs.readFileSync (files st) (Path.join [td; file])) as [e|content];
    [reflexivity|].
  unfold new_RegExp. destruct (RegExp.parse p) as [re| |]; reflexivity.
Qed.

Lemma eachFile_not_string cd td placeholder name file st :
  (forall p, placeholder <> Val (JSON.Str p)) ->
  eachFile cd td placeholder name file st = (Unmodelled, st).
Proof.
  intros H. unfold eachFile, pattern_of, bind, unmodelled.
  destruct placeholder as [|[| | |p| |]]; try reflexivity.
  exfalso. apply (H p). reflexivity.
Qed.

(** The callback prints nothing, and changes the file system at the path of
    the copy only. *)
Lemma eachFile_frame cd td placeholder name file st r st' :
  eachFile cd td placeholder name file st = (r, st') ->
  console st' = console st
  /\ forall k,
       (forall p, placeholder = Val (JSON.Str p) ->
                  Fs.locate (Path.join [cd; JsString.replace file p name]) <> k) ->
       files st' !! k = files st !! k.
Proof.
  intros H.
  assert (Hs : (exists p, placeholder = Val (JSON.Str p))
               \/ forall p, placeholder <> Val (JSON.Str p)).
  { destruct placeholder as [|[| | |p| |]]; try (right; intros; discriminate).
    left. exists p. reflexivity. }
  destruct Hs as [[p ->] | Hn].
  - rewrite eachFile_unfold in H.
    destruct (Fs.readFileSync _ _) as [e|content]; [injection H as <- <-; auto|].
    destruct (RegExp.parse p) as [re| |]; try (injection H as <- <-; auto).
    destruct (Fs.writeFileSync _ _ _) as [e|m] eqn:Hw; injection H as <- <-; [auto|].
    apply writeFileSync_inr in Hw as (-> & _). cbn [files console].
    split; [reflexivity|]. intros k Hk. apply lookup_insert_ne. apply (Hk p). reflexivity.
  - rewrite eachFile_not_string in H by exact Hn. injection H as <- <-. auto.
Qed.

Lemma forEach_frame {A} (body : A -> M unit) (P : A -> list string -> Prop) l :
  (forall x st r st', body x st = (r, st') ->
     console st' = console st
     /\ forall k, P x k -> files st' !! k = files st !! k) ->
  forall st r st', forEach l body st = (r, st') ->
    console st' = console st
    /\ forall k, (forall x, In x l -> P x k) -> files st' !! k = files st !! k.
Proof.
  intros Hbody. induction l as [|x l IH]; intros st r st' H.
  - injection H as <- <-. auto.
  - cbn [forEach] in H. unfold bind in H.
    destruct (body x st) as [r1 st1] eqn:Hx.
    destruct (Hbody _ _ _ _ Hx) as [Hc Hf].
    assert (Hstop : r1 <> Ret tt -> st' = st1).
    { intros Hne. destruct r1 as [[]| | |]; [congruence | | |]; injection H as _ <-; reflexivity. }
    destruct r1 as [[]| | |].
    + destruct (IH _ _ _ H) as [Hc' Hf']. split; [congruence|].
      intros k Hk. rewrite Hf' by (intros; apply Hk; right; assumption).
      apply Hf. apply Hk. left. reflexivity.
    + rewrite Hstop by discriminate. split; [exact Hc|].
      intros k Hk. apply Hf. apply Hk. left. reflexivity.
    + rewrite Hstop by discriminate. split; [exact Hc|].
      intros k Hk. apply Hf. apply Hk. left. reflexivity.
    + rewrite Hstop by discriminate. split; [exact Hc|].
      intros k Hk. apply Hf. apply Hk. left. reflexivity.
Qed.

(** The run of [materialize], step by step. *)
Lemma materialize_unfold proc c t placeholder name st :
  materialize proc c t placeholder name st
  = match Fs.mkdirSync (files st) (componentDir proc c name) with
    | inl e => (Throw (FsError e), st)
    | inr m1 =>
        let st1 := {| files := m1; console := console st |} in
        match Fs.readdirSync m1 (templateDir proc t) with
        | inl e => (Throw (FsError e), st1)
        | inr templateFiles =>
            match forEach templateFiles
                    (eachFile (componentDir proc c name) (templateDir proc t)
                              placeholder name) st1 with
            | (Ret _, st2) => print (success name) st2
            | (Throw e, st2) => (Throw e, st2)
            | (Exit code, st2) => (Exit code, st2)
            | (Unmodelled, st2) => (Unmodelled, st2)
            end
        end
    end.
Proof.
  unfold materialize, bind at 1, fs_mkdirSync, fs_write.
  destruct (Fs.mkdirSync (files st) (componentDir proc c name)) as [e|m1]; [reflexivity|].
  unfold bind at 1, fs_readdirSync, fs_read. cbn [files].
  destruct (Fs.readdirSync m1 (templateDir proc t)) as [e|templateFiles]; [reflexivity|].
  unfold bind at 1. reflexivity.
Qed.

Lemma run_configured proc name st c t placeholder :
  config_fields proc st = Some (c, t, placeholder) ->
  run proc name st
  = (outcome_of (fst (materialize proc c t placeholder name (prompted st))),
     snd (materialize proc c t placeholder name (prompted st))).
Proof.
  intros H. rewrite run_createComponent.
  rewrite (createComponent_configured proc (prompted st) c t placeholder name) by exact H.
  reflexivity.
Qed.

(** ** A missing template directory *)

(** C9, as the code has it: the component directory is made before the
    template directory is read.  When the configuration gives the two
    directories, [mkdirSync] succeeds and the template directory cannot be
    listed at that point, the run ends with the uncaught error of
    [readdirSync], and the file system it leaves is the one after
    [mkdirSync]: the component directory is there. *)
Theorem unreadable_templates_leave_directory proc name st c t placeholder m1 e :
  config_fields proc st = Some (c, t, placeholder) ->
  Fs.mkdirSync (files st) (componentDir proc c name) = inr m1 ->
  Fs.readdirSync m1 (templateDir proc t) = inl e ->
  run proc name st
  = (Uncaught (FsError e), {| files := m1; console := (console st ++ [prompt])%list |})
  /\ Fs.is_dir m1 (Fs.locate (componentDir proc c name)) = true.
Proof.
  intros Hc Hm Hr. split; [|eapply mkdirSync_is_dir; exact Hm].
  rewrite (run_configured proc name st c t placeholder Hc).
  rewrite materialize_unfold. cbn [prompted files console].
  rewrite Hm. cbn zeta. rewrite Hr. reflexivity.
Qed.

Lemma unreadable_templates_leave_directory_witness :
  let st := {| files := list_to_map
                 [ (["proj"], Fs.Dir);
                   (["proj"; "cg.config.json"], Fs.File (configText "COMPONENT_NAME")) ];
               console := [] |} in
  let m1 := <[ ["proj"; "src"; "components"; "Button"] := Fs.Dir ]>
            (<[ ["proj"; "src"; "components"] := Fs.Dir ]>
             (<[ ["proj"; "src"] := Fs.Dir ]> (files st))) in
  run proj "Button" st
  = (Uncaught (FsError Fs.ENOENT), {| files := m1; console := [prompt] |})
  /\ Fs.is_dir m1 (Fs.locate (componentDir proj "./src/components" "Button")) = true.
Proof.
  intros st m1.
  apply (unreadable_templates_leave_directory proj "Button" st
           "./src/components" "./template" (Val (JSON.Str "COMPONENT_NAME")) m1 Fs.ENOENT).
  - vm_compute. reflexivity.
  - compute_done.
  - vm_compute. reflexivity.
Defined.

(** The conditions are needed.
    - A regular file stands at [src], and there is no template directory:
      [mkdirSync] throws first, and the run fails with nothing created.
    - There is neither a configuration file nor a template directory: the
      run ends in [readConfig], with nothing created.
    - The template directory is the component directory, and does not exist
      before the run: [mkdirSync] makes it, it is listed, and the run
      completes. *)
Lemma template_directory_counterexamples :
  (let st := {| files := list_to_map
                  [ (["proj"], Fs.Dir);
                    (["proj"; "cg.config.json"], Fs.File (configText "COMPONENT_NAME"));
                    (["proj"; "src"], Fs.File "a file") ];
                console := [] |} in
   Fs.readdirSync (files st) (templateDir proj "./template") = inl Fs.ENOENT
   /\ fst (run proj "Button" st) = Uncaught (FsError Fs.ENOTDIR)
   /\ files (snd (run proj "Button" st)) = files st
   /\ Fs.is_dir (files (snd (run proj "Button" st)))
        (Fs.locate (componentDir proj "./src/components" "Button")) = false)
  /\ (let st := {| files := {[ ["proj"] := Fs.Dir ]}; console := [] |} in
      Fs.readdirSync (files st) (templateDir proj "./template") = inl Fs.ENOENT
      /\ fst (run proj "Button" st) = Exited 1
      /\ files (snd (run proj "Button" st)) = files st)
  /\ (let st := overlapping_with [] in
      Fs.readdirSync (files st) (templateDir proj "./x") = inl Fs.ENOENT
      /\ componentDir proj "." "x" = templateDir proj "./x"
      /\ fst (run proj "x" st) = Completed).
Proof.
  split; [|split].
  - intros st. split; [vm_compute; reflexivity|]. split; [vm_compute; reflexivity|].
    split; [compute_done | vm_compute; reflexivity].
  - intros st. split; [vm_compute; reflexivity|]. split; [vm_compute; reflexivity|].
    compute_done.
  - intros st. repeat split; vm_compute; reflexivity.
Qed.

(** ** What a run leaves alone *)

(** From [mkdirSync] on, with the component directory there already, a
    path that is not the path of a copy holds at the end what it held at the
    start. *)
Lemma materialize_frame proc c t p name st k :
  forallb (Fs.is_dir (files st)) (Fs.chain (Fs.locate (componentDir proc c name))) = true ->
  (forall templateFiles file,
      Fs.readdirSync (files st) (templateDir proc t) = inr templateFiles ->
      In file templateFiles ->
      Fs.locate (componentFilePath proc c p name file) <> k) ->
  files (snd (materialize proc c t (Val (JSON.Str p)) name st)) !! k = files st !! k.
Proof.
  intros Hd Hk. rewrite materialize_unfold.
  rewrite (mkdirSync_existing _ _ Hd). cbn zeta.
  destruct (Fs.readdirSync (files st) (templateDir proc t)) as [e|templateFiles] eqn:Hr;
    [reflexivity|].
  destruct (forEach templateFiles _ _) as [r st2] eqn:Hf.
  apply (forEach_frame _
           (fun file k => Fs.locate (componentFilePath proc c p name file) <> k)) in Hf.
  - destruct Hf as [_ Hf]. specialize (Hf k (fun file Hin => Hk _ file eq_refl Hin)).
    cbn [files] in Hf. destruct r as [[]| | |]; exact Hf.
  - intros file st0 r0 st0' H0. apply eachFile_frame in H0 as [H1 H2].
    split; [exact H1|]. intros k0 Hk0. apply H2. intros p0 [= <-]. exact Hk0.
Qed.

(** C7: when the component directory exists already, a path that is not
    the path of the copy of a template entry holds after the run what it
    held before it, whatever the outcome of the run: the files that were in
    the component directory under other names are still there with their
    text, and only the copies are created or overwritten.  The name of a
    copy is taken as the file it denotes in the component directory, its
    path being [path.join] of that directory and the name.  A run that
    leaves the modelled fragment is followed up to that point. *)
Theorem unrelated_files_untouched proc name st c t p k :
  config_fields proc st = Some (c, t, Val (JSON.Str p)) ->
  forallb (Fs.is_dir (files st)) (Fs.chain (Fs.locate (componentDir proc c name))) = true ->
  (forall templateFiles file,
      Fs.readdirSync (files st) (templateDir proc t) = inr templateFiles ->
      In file templateFiles ->
      Fs.locate (componentFilePath proc c p name file) <> k) ->
  files (snd (run proc name st)) !! k = files st !! k.
Proof.
  intros Hc Hd Hk.
  rewrite (run_configured proc name st c t _ Hc). cbn [snd].
  apply (materialize_frame proc c t p name (prompted st) k); assumption.
Qed.

Lemma unrelated_files_untouched_witness :
  files (snd (run proj "Button" project_again))
    !! ["proj"; "src"; "components"; "Button"; "notes.md"]
  = files project_again !! ["proj"; "src"; "components"; "Button"; "notes.md"].
Proof.
  apply (unrelated_files_untouched proj "Button" project_again
           "./src/components" "./template" "COMPONENT_NAME").
  - vm_compute. reflexivity.
  - vm_compute. reflexivity.
  - intros templateFiles file Hr. vm_compute in Hr. injection Hr as <-.
    intros [<- | []]. vm_compute. discriminate.
Defined.

(** ** What the loop keeps *)

Lemma forEach_invariant {A} (body : A -> M unit) (Q : state -> Prop) :
  (forall x st r st', body x st = (r, st') -> Q st -> Q st') ->
  forall l st r st', forEach l body st = (r, st') -> Q st -> Q st'.
Proof.
  intros Hbody. induction l as [|x l IH]; intros st r st' H HQ.
  - injection H as <- <-. exact HQ.
  - cbn [forEach] in H. unfold bind in H.
    destruct (body x st) as [r1 st1] eqn:Hx.
    pose proof (Hbody _ _ _ _ Hx HQ) as HQ1.
    destruct r1 as [[]| | |]; [eapply IH; eassumption | | |];
      injection H as <- <-; exact HQ1.
Qed.

(** A step of the loop leaves the state as it is, or writes one file. *)
Lemma eachFile_step cd td placeholder name file st r st' :
  eachFile cd td placeholder name file st = (r, st') ->
  st' = st
  \/ exists p data,
       Fs.writeFileSync (files st) p data = inr (files st')
       /\ console st' = console st.
Proof.
  intros H.
  destruct placeholder as [|[| | |p| |]];
    try (left; unfold eachFile, pattern_of, bind, unmodelled in H; congruence).
  rewrite eachFile_unfold in H.
  destruct (Fs.readFileSync _ _) as [e|content]; [left; congruence|].
  destruct (RegExp.parse p) as [re| |]; try (left; congruence).
  destruct (Fs.writeFileSync _ _ _) as [e|m] eqn:Hw; [left; congruence|].
  right. injection H as <- <-. eauto.
Qed.

Lemma writeFileSync_keeps_dir m p data m' d :
  Fs.writeFileSync m p data = inr m' -> Fs.is_dir m d = true -> Fs.is_dir m' d = true.
Proof.
  intros Hw Hd. apply writeFileSync_inr in Hw as (-> & Hne & _ & Hk).
  unfold Fs.is_dir in *. destruct d as [|seg d]; [reflexivity|].
  cbn [Fs.node_at] in *. rewrite lookup_insert_ne; [exact Hd|].
  intros E. rewrite E in Hk. unfold Fs.is_file in Hk. rewrite node_at_lookup in Hk by discriminate.
  destruct (m !! (seg :: d)) as [[|]|]; try discriminate.
  destruct Hk as [Hk | [Hk _]]; discriminate.
Qed.

Lemma writeFileSync_keeps_file m p data m' k :
  Fs.writeFileSync m p data = inr m' -> Fs.is_file m k = true -> Fs.is_file m' k = true.
Proof.
  intros Hw Hf. apply writeFileSync_inr in Hw as (-> & Hne & _ & _).
  unfold Fs.is_file in *. destruct k as [|seg k]; [discriminate|].
  cbn [Fs.node_at] in *. destruct (decide (Fs.locate p = seg :: k)) as [->|Hn].
  - rewrite lookup_insert_eq. reflexivity.
  - rewrite lookup_insert_ne by exact Hn. exact Hf.
Qed.

Lemma writeFileSync_keeps_dom m p data m' k :
  Fs.writeFileSync m p data = inr m' -> is_Some (m !! k) -> is_Some (m' !! k).
Proof.
  intros Hw Hs. apply writeFileSync_inr in Hw as (-> & _).
  destruct (decide (Fs.locate p = k)) as [->|Hn].
  - rewrite lookup_insert_eq. eauto.
  - rewrite lookup_insert_ne by exact Hn. exact Hs.
Qed.

Section Loop.

Variables (cd td : string) (placeholder : jsval) (name : string).

Let body := eachFile cd td placeholder name.

Lemma forEach_keeps_dir l st r st' d :
  forEach l body st = (r, st') ->
  Fs.is_dir (files st) d = true -> Fs.is_dir (files st') d = true.
Proof.
  apply (forEach_invariant body (fun s => Fs.is_dir (files s) d = true)).
  intros x s r0 s' H HQ. apply eachFile_step in H as [-> | (p & data & Hw & _)];
    [exact HQ | eapply writeFileSync_keeps_dir; eassumption].
Qed.

Lemma forEach_keeps_file l st r st' k :
  forEach l body st = (r, st') ->
  Fs.is_file (files st) k = true -> Fs.is_file (files st') k = true.
Proof.
  apply (forEach_invariant body (fun s => Fs.is_file (files s) k = true)).
  intros x s r0 s' H HQ. apply eachFile_step in H as [-> | (p & data & Hw & _)];
    [exact HQ | eapply writeFileSync_keeps_file; eassumption].
Qed.

Lemma forEach_keeps_dom l st r st' k :
  forEach l body st = (r, st') ->
  is_Some (files st !! k) -> is_Some (files st' !! k).
Proof.
  apply (forEach_invariant body (fun s => is_Some (files s !! k))).
  intros x s r0 s' H HQ. apply eachFile_step in H as [-> | (p & data & Hw & _)];
    [exact HQ | eapply writeFileSync_keeps_dom; eassumption].
Qed.

Lemma forEach_console l st r st' :
  forEach l body st = (r, st') -> console st' = console st.
Proof.
  intros H.
  apply (forEach_invariant body (fun s => console s = console st)) in H;
    [exact H | | reflexivity].
  intros x s r0 s' Hx HQ. apply eachFile_step in Hx as [-> | (p & data & _ & Hc)];
    congruence.
Qed.

End Loop.

(** ** A second run *)

Lemma readFileSync_inr m p data :
  Fs.readFileSync m p = inr data <->
  Fs.node_at m (Fs.locate p) = Some (Fs.File data) /\ Path.hasTrailingSeparator p = false.
Proof.
  unfold Fs.readFileSync. destruct (Fs.node_at m (Fs.locate p)) as [[old|]|].
  - destruct (Path.hasTrailingSeparator p); split.
    + discriminate.
    + intros [_ ?]; discriminate.
    + intros [= ->]. auto.
    + intros [[= ->] _]. reflexivity.
  - split; [discriminate | intros [? _]; discriminate].
  - split; [discriminate | intros [? _]; discriminate].
Qed.

Lemma node_at_file m k data :
  Fs.node_at m k = Some (Fs.File data) -> k <> [] /\ m !! k = Some (Fs.File data).
Proof. destruct k; [discriminate | intros H; split; [discriminate | exact H]]. Qed.

Lemma writeFileSync_ok m p data :
  Fs.locate p <> [] ->
  Path.hasTrailingSeparator p = false ->
  Fs.is_file m (Fs.locate p) = true
  \/ m !! Fs.locate p = None /\ Fs.is_dir m (Fs.parent (Fs.locate p)) = true ->
  Fs.writeFileSync m p data = inr (<[Fs.locate p := Fs.File data]> m).
Proof.
  intros Hne Ht Hk. unfold Fs.writeFileSync, Fs.is_file, Fs.is_dir in *.
  rewrite Ht. rewrite node_at_lookup in * by exact Hne.
  destruct (m !! Fs.locate p) as [[old|]|].
  - reflexivity.
  - destruct Hk as [Hk | [Hk _]]; discriminate.
  - destruct Hk as [Hk | [_ Hk]]; [discriminate|].
    destruct (Fs.node_at m (Fs.parent (Fs.locate p))) as [[|]|]; try discriminate.
    reflexivity.
Qed.

(** The loop run again.  A first run of the loop over [l] took the file
    system from [files st] to [m1].  It is run again from [files st'], where
    every path holds what it holds in [files st], or what it holds in [m1]
    while [files st] still has there what the first run started from ([m0]).
    When the template files read in [m0] read the same in [m1], the second
    run writes what the first wrote and ends in [m1] too. *)
Lemma forEach_again (cd td p name : string) (m0 m1 : Fs.tree) (l : list string) :
  (forall file data, In file l ->
     Fs.readFileSync m0 (Path.join [td; file]) = inr data ->
     Fs.readFileSync m1 (Path.join [td; file]) = inr data) ->
  forall st st' st_end,
    forEach l (eachFile cd td (Val (JSON.Str p)) name) st = (Ret tt, st_end) ->
    files st_end = m1 ->
    (forall k, files st' !! k = files st !! k
               \/ files st' !! k = m1 !! k /\ files st !! k = m0 !! k) ->
    forEach l (eachFile cd td (Val (JSON.Str p)) name) st'
    = (Ret tt, {| files := m1; console := console st' |}).
Proof.
  induction l as [|x l IH]; intros Hread st st' st_end H Hend R.
  - injection H as <-. cbn [forEach]. unfold ret. f_equal.
    destruct st' as [s' con']. cbn [files console] in *. f_equal.
    apply map_eq. intros k. destruct (R k) as [E | [E _]]; congruence.
  - pose proof H as Hall. cbn [forEach] in H. unfold bind in H.
    destruct (eachFile cd td (Val (JSON.Str p)) name x st) as [r1 st1] eqn:Hx.
    destruct r1 as [[]| | |]; try discriminate.
    rewrite eachFile_unfold in Hx.
    destruct (Fs.readFileSync (files st) (Path.join [td; x])) as [e|content] eqn:Hr;
      [discriminate|].
    destruct (RegExp.parse p) as [re| |] eqn:Hp; try discriminate.
    destruct (Fs.writeFileSync (files st) _ _) as [e|m] eqn:Hw; [discriminate|].
    injection Hx as <-.
    set (op := Path.join [cd; JsString.replace x p name]) in *.
    set (data := RegExp.replace content re name) in *.
    (* the second run reads the same text *)
    assert (Hr' : Fs.readFileSync (files st') (Path.join [td; x]) = inr content).
    { apply readFileSync_inr in Hr as [Hn Ht]. apply readFileSync_inr. split; [|exact Ht].
      destruct (node_at_file _ _ _ Hn) as [Hne Hk]. rewrite node_at_lookup by exact Hne.
      destruct (R (Fs.locate (Path.join [td; x]))) as [E | [E E0]]; [congruence|].
      assert (H1 : Fs.readFileSync m1 (Path.join [td; x]) = inr content).
      { apply (Hread x); [left; reflexivity|]. apply readFileSync_inr. split; [|exact Ht].
        rewrite node_at_lookup by exact Hne. congruence. }
      apply readFileSync_inr in H1 as [H1 _]. rewrite node_at_lookup in H1 by exact Hne.
      congruence. }
    (* and can write where the first run wrote *)
    pose proof Hw as Hw0. apply writeFileSync_inr in Hw0 as (Hm & Hne & Ht & Hk).
    assert (Hfile1 : Fs.is_file m1 (Fs.locate op) = true).
    { rewrite <- Hend.
      apply (forEach_keeps_file cd td (Val (JSON.Str p)) name l
               {| files := m; console := console st |} (Ret tt) st_end); [exact H|].
      cbn [files]. rewrite Hm. unfold Fs.is_file. rewrite node_at_lookup by exact Hne.
      rewrite lookup_insert_eq. reflexivity. }
    assert (Hw' : Fs.writeFileSync (files st') op data
                  = inr (<[Fs.locate op := Fs.File data]> (files st'))).
    { apply writeFileSync_ok; [exact Hne | exact Ht |].
      unfold Fs.is_file in *. rewrite node_at_lookup in * by exact Hne.
      destruct (R (Fs.locate op)) as [E | [E _]].
      - rewrite E. destruct Hk as [Hk | [Hk Hd]]; [left; exact Hk|].
        right. split; [exact Hk|].
        destruct (Fs.parent (Fs.locate op)) as [|seg d] eqn:Ed; [reflexivity|].
        destruct (R (seg :: d)) as [E' | [E' _]].
        + unfold Fs.is_dir in *. cbn [Fs.node_at] in *. rewrite E'. exact Hd.
        + assert (Hd1 : Fs.is_dir m1 (seg :: d) = true).
          { rewrite <- Hend.
            eapply (forEach_keeps_dir cd td (Val (JSON.Str p)) name); [exact Hall | exact Hd]. }
          unfold Fs.is_dir in *. cbn [Fs.node_at] in *. rewrite E'. exact Hd1.
      - left. rewrite E. exact Hfile1. }
    cbn [forEach]. unfold bind. rewrite eachFile_unfold. rewrite Hr', Hp.
    fold op. fold data. rewrite Hw'.
    apply (IH (fun file d Hin => Hread file d (or_intror Hin))
              {| files := m; console := console st |}
              {| files := <[Fs.locate op := Fs.File data]> (files st');
                 console := console st' |} st_end H Hend).
    intros k. cbn [files]. rewrite Hm.
    destruct (decide (Fs.locate op = k)) as [<-|Hn].
    + left. rewrite !lookup_insert_eq. reflexivity.
    + rewrite !lookup_insert_ne by exact Hn. apply R.
Qed.

Lemma entries_mono (m m' : Fs.tree) (dir : list string) :
  (forall k, is_Some (m !! k) -> is_Some (m' !! k)) ->
  Fs.entries m dir ⊆ Fs.entries m' dir.
Proof.
  intros H x Hx. unfold Fs.entries in *.
  apply elem_of_set_omap in Hx as (k & Hk & Hc). apply elem_of_set_omap.
  exists k. split; [|exact Hc]. apply elem_of_dom. apply H. apply elem_of_dom. exact Hk.
Qed.

Lemma elements_eq (X Y : gset string) : elements X = elements Y -> X = Y.
Proof.
  intros H. apply set_eq. intros x. rewrite <- !elem_of_elements. rewrite H. reflexivity.
Qed.

Lemma readdirSync_inr m p l :
  Fs.readdirSync m p = inr l <->
  Fs.is_dir m (Fs.locate p) = true /\ l = elements (Fs.entries m (Fs.locate p)).
Proof.
  unfold Fs.readdirSync, Fs.is_dir.
  destruct (Fs.node_at m (Fs.locate p)) as [[old|]|]; split;
    try discriminate; try (intros [? _]; discriminate).
  - intros [= <-]. auto.
  - intros [_ ->]. reflexivity.
Qed.

Lemma materialize_ret proc c t placeholder name st st1 :
  materialize proc c t placeholder name st = (Ret tt, st1) ->
  exists m1 templateFiles st2,
    Fs.mkdirSync (files st) (componentDir proc c name) = inr m1
    /\ Fs.readdirSync m1 (templateDir proc t) = inr templateFiles
    /\ forEach templateFiles
         (eachFile (componentDir proc c name) (templateDir proc t) placeholder name)
         {| files := m1; console := console st |} = (Ret tt, st2)
    /\ st1 = {| files := files st2; console := (console st2 ++ [success name])%list |}.
Proof.
  rewrite materialize_unfold.
  destruct (Fs.mkdirSync _ _) as [e|m1] eqn:Hm; [discriminate|]. cbn zeta.
  destruct (Fs.readdirSync _ _) as [e|templateFiles] eqn:Hl; [discriminate|].
  destruct (forEach _ _ _) as [[[]| | |] st2] eqn:Hf; try discriminate.
  unfold print. intros [= <-]. exists m1, templateFiles, st2.
  repeat split; assumption.
Qed.

(** C6: a second run.  The first run, for [name], completed and left the
    state [st1].  When the configuration is the same in [st1], and the
    template directory lists and its files read in [st1] as they did before
    the first run, the second run for [name] completes too and leaves the
    file system exactly as the first left it: every copy has the same name
    and the same text. *)
Theorem second_run_identical proc name st st1 c t p :
  config_fields proc st = Some (c, t, Val (JSON.Str p)) ->
  run proc name st = (Completed, st1) ->
  config_fields proc st1 = Some (c, t, Val (JSON.Str p)) ->
  Fs.readdirSync (files st1) (templateDir proc t)
  = Fs.readdirSync (files st) (templateDir proc t) ->
  (forall templateFiles file,
      Fs.readdirSync (files st) (templateDir proc t) = inr templateFiles ->
      In file templateFiles ->
      Fs.readFileSync (files st1) (templateFilePath proc t file)
      = Fs.readFileSync (files st) (templateFilePath proc t file)) ->
  run proc name st1
  = (Completed, {| files := files st1;
                   console := (console st1 ++ [prompt; success name])%list |}).
Proof.
  intros Hc H1 Hc1 Hls Hrd.
  rewrite (run_configured proc name st c t _ Hc) in H1.
  destruct (materialize proc c t (Val (JSON.Str p)) name (prompted st)) as [r sx] eqn:Hm.
  cbn [fst snd] in H1. injection H1 as Hr ->.
  destruct r as [[]| | |]; try discriminate. clear Hr.
  apply materialize_ret in Hm as (m0 & l & st2 & Hmk & Hl & Hf & ->).
  cbn [prompted files console] in *.
  set (cd := componentDir proc c name) in *. set (td := templateDir proc t) in *.
  set (m1 := files st2) in *.
  (* the directories of the first run are still there *)
  assert (Hdirs : forall d, Fs.is_dir m0 d = true -> Fs.is_dir m1 d = true).
  { intros d Hd.
    apply (forEach_keeps_dir cd td (Val (JSON.Str p)) name l _ _ _ d Hf). exact Hd. }
  assert (Hmk1 : Fs.mkdirSync m1 cd = inr m1).
  { apply mkdirSync_existing. apply forallb_forall. intros d Hd. apply Hdirs.
    pose proof (mkdirSync_chain _ _ _ Hmk) as Hch. rewrite forallb_forall in Hch.
    apply Hch. exact Hd. }
  (* the template directory lists the same entries *)
  apply readdirSync_inr in Hl as [Htd Hl].
  assert (Hl1 : Fs.readdirSync m1 td = inr (elements (Fs.entries m1 (Fs.locate td)))).
  { apply readdirSync_inr. split; [apply Hdirs; exact Htd | reflexivity]. }
  assert (Hl0 : Fs.readdirSync (files st) td = inr l).
  { rewrite Hl1 in Hls. symmetry in Hls. pose proof Hls as Hls'.
    apply readdirSync_inr in Hls' as [_ He]. apply elements_eq in He.
    rewrite Hls. f_equal. rewrite Hl. f_equal.
    assert (S1 : Fs.entries (files st) (Fs.locate td) ⊆ Fs.entries m0 (Fs.locate td)).
    { apply entries_mono. intros k [n Hn]. exists n. eapply mkdirSync_keeps; eassumption. }
    assert (S2 : Fs.entries m0 (Fs.locate td) ⊆ Fs.entries m1 (Fs.locate td)).
    { apply entries_mono. intros k Hk.
      apply (forEach_keeps_dom cd td (Val (JSON.Str p)) name l _ _ _ k Hf). exact Hk. }
    rewrite He in S2. rewrite He. apply set_eq. intros x.
    split; intros Hx; [apply S1 | apply S2]; exact Hx. }
  assert (Hl1' : Fs.readdirSync m1 td = inr l) by (rewrite Hls; exact Hl0).
  (* the loop writes the same files *)
  assert (Hloop : forEach l (eachFile cd td (Val (JSON.Str p)) name)
                    {| files := m1; console := (console st2 ++ [success name; prompt])%list |}
                  = (Ret tt, {| files := m1;
                                console := (console st2 ++ [success name; prompt])%list |})).
  { apply (forEach_again cd td p name m0 m1 l) with
      (st := {| files := m0; console := console st ++ [prompt] |}) (st_end := st2);
      [ | exact Hf | reflexivity | ].
    - intros file data Hin Hr.
      specialize (Hrd l file Hl0 Hin). unfold templateFilePath in Hrd. fold td in Hrd.
      rewrite Hrd. apply readFileSync_inr in Hr as [Hn Ht]. apply readFileSync_inr.
      split; [|exact Ht]. destruct (node_at_file _ _ _ Hn) as [Hne Hk].
      rewrite node_at_lookup by exact Hne.
      destruct (mkdirSync_lookup _ _ _ (Fs.locate (Path.join [td; file])) Hmk) as [E|E];
        congruence.
    - intros k. right. split; reflexivity. }
  rewrite (run_configured proc name _ c t _ Hc1). rewrite materialize_unfold.
  cbn [prompted files console]. fold cd. fold td. rewrite Hmk1. cbn zeta. rewrite Hl1'.
  rewrite <- app_assoc. cbn [app]. rewrite Hloop.
  unfold print. cbn [fst snd outcome_of files console].
  rewrite <- !app_assoc. reflexivity.
Qed.

Lemma second_run_identical_witness :
  let st := project "COMPONENT_NAME"
              [("COMPONENT_NAME.js", "export const COMPONENT_NAME = () => {};")] in
  let st1 := snd (run proj "Button" st) in
  run proj "Button" st1
  = (Completed, {| files := files st1;
                   console := (console st1 ++ [prompt; success "Button"])%list |}).
Proof.
  intros st st1.
  apply (second_run_identical proj "Button" st st1
           "./src/components" "./template" "COMPONENT_NAME").
  - vm_compute. reflexivity.
  - compute_done.
  - vm_compute. reflexivity.
  - vm_compute. reflexivity.
  - intros templateFiles file Hr. vm_compute in Hr. injection Hr as <-.
    intros [<- | []]. vm_compute. reflexivity.
Defined.

(** ** Substitution *)

Lemma append_cons c (s t : string) : String c s +:+ t = String c (s +:+ t).
Proof. reflexivity. Qed.

Lemma append_empty_l (s : string) : "" +:+ s = s.
Proof. reflexivity. Qed.

Lemma append_empty_r (s : string) : s +:+ "" = s.
Proof.
  induction s as [|c s IH]; [reflexivity | rewrite append_cons, IH; reflexivity].
Qed.

(** A replacement without a dollar sign is inserted as it is. *)
Lemma GetSubstitution_plain matched before after replacement :
  Str.has_char "$" replacement = false ->
  JsString.GetSubstitution matched before after replacement = replacement.
Proof.
  induction replacement as [|c r IH]; cbn [JsString.GetSubstitution Str.has_char];
    [reflexivity|].
  intros H. apply orb_false_elim in H as [Hc Hr].
  rewrite Ascii.eqb_sym, Hc. rewrite IH by exact Hr. reflexivity.
Qed.

(** An empty pattern is found at the front: the replacement is prepended. *)
Lemma replace_empty_pattern file replacement :
  JsString.replace file "" replacement
  = JsString.GetSubstitution "" "" file replacement +:+ file.
Proof. unfold JsString.replace. destruct file; reflexivity. Qed.

(** The empty regular expression matches at every position: the replacement
    goes before every character and after the last. *)
Lemma regexp_empty_replace replacement before bol s :
  Str.has_char "$" replacement = false ->
  RegExp.replace_from [] replacement before bol s 0 = Str.intersperse replacement s.
Proof.
  intros H. revert before bol. induction s as [|c s IH]; intros before bol;
    cbn [RegExp.replace_from RegExp.matches Str.intersperse].
  - rewrite GetSubstitution_plain by exact H. apply append_empty_r.
  - rewrite GetSubstitution_plain by exact H. rewrite IH. reflexivity.
Qed.

(** *** Placeholders without pattern syntax *)

Lemma plain_char c :
  RegExp.is_syntax_char c = false ->
  RegExp.is_quantifier c = false
  /\ Ascii.eqb c ")" = false
  /\ (Ascii.eqb c "(" || Ascii.eqb c "[" || Ascii.eqb c "{" || Ascii.eqb c "|") = false
  /\ Ascii.eqb c "^" = false /\ Ascii.eqb c "$" = false
  /\ Ascii.eqb c "\" = false /\ Ascii.eqb c "." = false.
Proof.
  unfold RegExp.is_syntax_char, RegExp.is_quantifier. cbn [Str.has_char].
  intros H. repeat (apply orb_false_elim in H as [? H]).
  repeat match goal with E : Ascii.eqb _ _ = false |- _ => rewrite E; clear E end.
  repeat split; reflexivity.
Qed.

Lemma parse_plain p :
  plain_pattern p = true -> RegExp.parse p = RegExp.Compiled (literal p).
Proof.
  induction p as [|c r IH]; [reflexivity|].
  cbn [plain_pattern literal]. intros H. apply andb_prop in H as [Hc Hr].
  apply negb_true_iff in Hc. specialize (IH Hr).
  destruct (plain_char c Hc) as (Hq & H1 & H2 & H3 & H4 & H5 & H6).
  cbn [RegExp.parse]. rewrite Hq, H1, H2, H3, H4, H5, H6.
  destruct r as [|d r']; [reflexivity|].
  cbn [plain_pattern] in Hr. apply andb_prop in Hr as [Hd _]. apply negb_true_iff in Hd.
  destruct (plain_char d Hd) as (Hqd & _). rewrite Hqd, IH. reflexivity.
Qed.

Lemma matches_literal p bol s :
  RegExp.matches (literal p) bol s
  = match Str.strip_prefix p s with
    | Some _ => Some (String.length p)
    | None => None
    end.
Proof.
  revert bol s. induction p as [|c r IH]; intros bol s; [reflexivity|].
  cbn [literal RegExp.matches Str.strip_prefix String.length RegExp.atom_matches].
  destruct s as [|d s']; [reflexivity|].
  destruct (Ascii.eqb c d); [|reflexivity].
  rewrite IH. destruct (Str.strip_prefix r s'); reflexivity.
Qed.

Lemma replace_from_literal p replacement before bol s skip :
  Str.has_char "$" replacement = false ->
  RegExp.replace_from (literal p) replacement before bol s skip
  = Str.replace_all_from p replacement s skip.
Proof.
  intros H. revert before bol skip.
  induction s as [|c s IH]; intros before bol skip;
    cbn [RegExp.replace_from Str.replace_all_from]; rewrite matches_literal.
  - destruct skip; [|reflexivity].
    destruct (Str.strip_prefix p ""); [|reflexivity].
    rewrite GetSubstitution_plain by exact H. destruct (String.length p); reflexivity.
  - destruct skip as [|k]; [|apply IH].
    destruct (Str.strip_prefix p (String c s)).
    + rewrite GetSubstitution_plain by exact H.
      destruct (String.length p); rewrite IH; reflexivity.
    + rewrite IH. reflexivity.
Qed.

(** For a placeholder without pattern syntax and a component name without a
    dollar sign, the text written is the text read with every occurrence of
    the placeholder replaced by the name. *)
Lemma content_replaced_everywhere placeholder componentName templateContent st :
  plain_pattern placeholder = true ->
  Str.has_char "$" componentName = false ->
  new_RegExp placeholder st = (Ret (literal placeholder), st)
  /\ RegExp.replace templateContent (literal placeholder) componentName
     = Str.replace_all placeholder componentName templateContent.
Proof.
  intros Hp Hn. split.
  - unfold new_RegExp. rewrite (parse_plain _ Hp). reflexivity.
  - apply replace_from_literal. exact Hn.
Qed.

(** ** Where the substitution departs from a literal replacement *)

(** C1: a placeholder is compiled as a regular expression.  With the
    placeholder [$NAME] the dollar sign is the end-of-input assertion, the
    expression matches nowhere, and the text is copied unchanged, where the
    literal replacement gives [const Button = 1;].  With the placeholder
    [COMPONENT_NAME] and the name [$&], the name is expanded as a replacement
    pattern and the placeholder is put back. *)
Theorem content_placeholder_as_regexp :
  let st := project "$NAME" [("view.js", "const $NAME = 1;")] in
  let st' := project "COMPONENT_NAME" [("view.js", "const COMPONENT_NAME = 1;")] in
  Str.contains "$NAME" "Button" = false
  /\ fst (run proj "Button" st) = Completed
  /\ Fs.readFileSync (files (snd (run proj "Button" st)))
       "/proj/src/components/Button/view.js" = inr "const $NAME = 1;"
  /\ Str.replace_all "$NAME" "Button" "const $NAME = 1;" = "const Button = 1;"
  /\ Str.contains "COMPONENT_NAME" "$&" = false
  /\ fst (run proj "$&" st') = Completed
  /\ Fs.readFileSync (files (snd (run proj "$&" st')))
       "/proj/src/components/$&/view.js" = inr "const COMPONENT_NAME = 1;"
  /\ Str.replace_all "COMPONENT_NAME" "$&" "const COMPONENT_NAME = 1;" = "const $& = 1;".
Proof. vm_compute. repeat split; reflexivity. Qed.

(** C2: in the name of an entry only the first occurrence of the placeholder
    is replaced: the entry [COMPONENT_NAME-COMPONENT_NAME.js] is copied to
    [Button-COMPONENT_NAME.js], where replacing every occurrence gives
    [Button-Button.js]. *)
Theorem file_name_first_occurrence_only :
  let st := project "COMPONENT_NAME" [("COMPONENT_NAME-COMPONENT_NAME.js", "// COMPONENT_NAME")] in
  fst (run proj "Button" st) = Completed
  /\ Fs.readdirSync (files (snd (run proj "Button" st))) "/proj/src/components/Button"
     = inr ["Button-COMPONENT_NAME.js"]
  /\ Str.replace_all "COMPONENT_NAME" "Button" "COMPONENT_NAME-COMPONENT_NAME.js"
     = "Button-Button.js".
Proof. vm_compute. repeat split; reflexivity. Qed.

(** C4: the component name is the replacement of both substitutions, and a
    replacement is a pattern.  For the name [$$] the directory is [$$], but
    the file is [$.js] and its text has [$], where the name as it is gives
    [$$.js] and [$$]. *)
Theorem dollar_name_not_verbatim :
  let st := project "COMPONENT_NAME"
              [("COMPONENT_NAME.js", "export const COMPONENT_NAME = () => {};")] in
  fst (run proj "$$" st) = Completed
  /\ Fs.readdirSync (files (snd (run proj "$$" st))) "/proj/src/components"
     = inr ["$$"]
  /\ Fs.readdirSync (files (snd (run proj "$$" st))) "/proj/src/components/$$"
     = inr ["$.js"]
  /\ Fs.readFileSync (files (snd (run proj "$$" st))) "/proj/src/components/$$/$.js"
     = inr "export const $ = () => {};"
  /\ Str.replace_all "COMPONENT_NAME" "$$" "COMPONENT_NAME.js" = "$$.js"
  /\ Str.replace_all "COMPONENT_NAME" "$$" "export const COMPONENT_NAME = () => {};"
     = "export const $$ = () => {};".
Proof. vm_compute. repeat split; reflexivity. Qed.

(** ** An empty placeholder *)

(** With the empty placeholder and a component name without a dollar sign,
    the callback reads the template file and writes, under the component
    name followed by the name of the template file, the text with the
    component name before every character and once at the end. *)
Lemma empty_placeholder_copy cd td name file st :
  Str.has_char "$" name = false ->
  eachFile cd td (Val (JSON.Str "")) name file st
  = (let* templateContent := fs_readFileSync (Path.join [td; file]) in
     fs_writeFileSync (Path.join [cd; name +:+ file])
                      (Str.intersperse name templateContent)) st.
Proof.
  intros H. rewrite eachFile_unfold.
  unfold bind, fs_readFileSync, fs_read, fs_writeFileSync, fs_write.
  destruct (Fs.readFileSync (files st) (Path.join [td; file])) as [e|content];
    [reflexivity|].
  cbn [RegExp.parse]. rewrite replace_empty_pattern, GetSubstitution_plain by exact H.
  unfold RegExp.replace. rewrite regexp_empty_replace by exact H. reflexivity.
Qed.

(** ** A component name with a path separator *)

(** For the name [a/b] the directories [a] and [a/b] are made, but the copy
    of [COMPONENT_NAME.js] is to be written to [a/b/a/b.js]: the directory
    [a/b/a] does not exist, the write fails, and no file is written.  The
    same name fails for other reasons too: with the placeholder [*], which
    [new RegExp] refuses, and when a regular file stands where a directory is
    to be made. *)
Lemma separator_in_name_fails :
  let st := project "COMPONENT_NAME"
              [("COMPONENT_NAME.js", "export const COMPONENT_NAME = () => {};")] in
  (fst (run proj "a/b" st) = Uncaught (FsError Fs.ENOENT)
   /\ componentFilePath proj "./src/components" "COMPONENT_NAME" "a/b" "COMPONENT_NAME.js"
      = "/proj/src/components/a/b/a/b.js"
   /\ Fs.is_dir (files (snd (run proj "a/b" st))) ["proj"; "src"; "components"; "a"; "b"] = true
   /\ Fs.readdirSync (files (snd (run proj "a/b" st))) "/proj/src/components/a/b" = inr [])
  /\ fst (run proj "a/b" (project "*" [("README.md", "text")])) = Uncaught RegExpSyntaxError
  /\ fst (run proj "a/b"
            {| files := <[ ["proj"; "src"] := Fs.File "a file" ]>
                          (files (project "COMPONENT_NAME" [("README.md", "text")]));
               console := [] |})
     = Uncaught (FsError Fs.ENOTDIR).
Proof. vm_compute. repeat split; reflexivity. Qed.

(** ** Paths *)

Lemma plain_name_inv x :
  plain_name x = true ->
  Path.nonempty x = true /\ String.eqb x "" = false /\ String.eqb x "." = false
  /\ String.eqb x ".." = false /\ Str.has_char Path.sep x = false.
Proof.
  unfold plain_name. intros H.
  apply andb_prop in H as [H H4]. apply andb_prop in H as [H H3].
  apply andb_prop in H as [H1 H2].
  apply negb_true_iff in H2, H3, H4.
  repeat split; try assumption. destruct x; [discriminate | reflexivity].
Qed.

Lemma split_nonempty sep s : exists piece rest, Str.split sep s = piece :: rest.
Proof.
  induction s as [|c s (piece & rest & IH)]; cbn [Str.split]; [eauto|].
  destruct (Ascii.eqb c sep); [eauto|]. rewrite IH. eauto.
Qed.

Lemma split_without_sep sep x : Str.has_char sep x = false -> Str.split sep x = [x].
Proof.
  induction x as [|c x IH]; cbn [Str.split Str.has_char]; [reflexivity|].
  intros H. apply orb_false_elim in H as [Hc Hx].
  rewrite Ascii.eqb_sym, Hc, (IH Hx). reflexivity.
Qed.

Lemma split_app sep a b :
  Str.split sep (a +:+ String sep b) = (Str.split sep a ++ Str.split sep b)%list.
Proof.
  induction a as [|c a IH].
  - rewrite append_empty_l. cbn [Str.split]. rewrite Ascii.eqb_refl. reflexivity.
  - rewrite append_cons. cbn [Str.split]. rewrite IH.
    destruct (Ascii.eqb c sep); [reflexivity|].
    destruct (split_nonempty sep a) as (piece & rest & ->). reflexivity.
Qed.

Lemma join_cons2 sep x y l :
  Str.join sep (x :: y :: l) = x +:+ sep +:+ Str.join sep (y :: l).
Proof. reflexivity. Qed.

Lemma split_join (l : list string) :
  l <> [] -> Forall (fun x => Str.has_char Path.sep x = false) l ->
  Str.split Path.sep (Str.join "/" l) = l.
Proof.
  induction l as [|x l IH]; [congruence|]. intros _ H.
  apply Forall_cons in H as [Hx Hl]. destruct l as [|y l].
  - apply split_without_sep. exact Hx.
  - rewrite join_cons2. change ("/" +:+ Str.join "/" (y :: l))
      with (String Path.sep (Str.join "/" (y :: l))).
    rewrite split_app, (split_without_sep _ _ Hx), IH by (discriminate || exact Hl).
    reflexivity.
Qed.

Lemma plain_without_sep l :
  Forall (fun x => plain_name x = true) l ->
  Forall (fun x => Str.has_char Path.sep x = false) l.
Proof.
  intros H. eapply Forall_impl; [exact H|].
  intros x Hx. apply plain_name_inv in Hx. tauto.
Qed.

Lemma filter_plain l :
  Forall (fun x => plain_name x = true) l -> List.filter Path.nonempty l = l.
Proof.
  induction 1 as [|x l Hx _ IH]; [reflexivity|]. cbn [List.filter].
  apply plain_name_inv in Hx as (-> & _). rewrite IH. reflexivity.
Qed.

(** Segments that are names or empty are kept, the empty ones apart. *)
Lemma normalizeSegments_names allow stack segs :
  Forall (fun x => x = "" \/ plain_name x = true) segs ->
  Path.normalizeSegments allow stack segs
  = (rev stack ++ List.filter Path.nonempty segs)%list.
Proof.
  intros H. revert stack. induction H as [|x l Hx _ IH]; intros stack.
  - cbn. rewrite app_nil_r. reflexivity.
  - cbn [Path.normalizeSegments List.filter]. destruct Hx as [-> | Hx].
    + cbn. apply IH.
    + apply plain_name_inv in Hx as (Hn & H0 & H1 & H2 & _).
      rewrite H0, H1, H2, Hn. cbn [orb]. rewrite IH. cbn [rev].
      rewrite <- app_assoc. reflexivity.
Qed.

(** What [normalizeString] keeps of an absolute path are names. *)
Lemma normalizeSegments_plain stack segs :
  Forall (fun x => plain_name x = true) stack ->
  Forall (fun x => Str.has_char Path.sep x = false) segs ->
  Forall (fun x => plain_name x = true) (Path.normalizeSegments false stack segs).
Proof.
  intros Hs H. revert stack Hs. induction H as [|x l Hx _ IH]; intros stack Hs.
  - cbn. apply Forall_rev. exact Hs.
  - cbn [Path.normalizeSegments].
    destruct (String.eqb x "") eqn:E0; [apply IH; exact Hs|].
    destruct (String.eqb x ".") eqn:E1; [apply IH; exact Hs|]. cbn [orb].
    destruct (String.eqb x "..") eqn:E2.
    + destruct stack as [|top stack']; [apply IH; constructor|].
      apply Forall_cons in Hs as [Ht Hs'].
      destruct (String.eqb top ".."); apply IH; [constructor; assumption | assumption].
    + apply IH. constructor; [|exact Hs].
      unfold plain_name. rewrite E1, E2, Hx. destruct x; [discriminate | reflexivity].
Qed.

Lemma split_all_without_sep sep s :
  Forall (fun x => Str.has_char sep x = false) (Str.split sep s).
Proof.
  induction s as [|c s IH]; cbn [Str.split]; [repeat constructor|].
  destruct (Ascii.eqb c sep) eqn:E; [constructor; [reflexivity | exact IH]|].
  destruct (Str.split sep s) as [|piece rest]; [repeat constructor; cbn;
    rewrite Ascii.eqb_sym, E; reflexivity|].
  apply Forall_cons in IH as [Hp Hr]. constructor; [|exact Hr].
  cbn [Str.has_char]. rewrite Ascii.eqb_sym, E, Hp. reflexivity.
Qed.

Lemma render_cons segs : Path.render segs = String Path.sep (Str.join "/" segs).
Proof. reflexivity. Qed.

Lemma join_plain_nonempty l :
  Forall (fun x => plain_name x = true) l -> l <> [] ->
  exists c r, Str.join "/" l = String c r.
Proof.
  intros H Hne. destruct l as [|x l]; [congruence|].
  apply Forall_cons in H as [Hx _]. apply plain_name_inv in Hx as (Hn & _).
  destruct x as [|c x]; [discriminate|]. destruct l; cbn [Str.join]; eauto.
Qed.

Lemma last_char_app a b :
  b <> "" -> Str.last_char (a +:+ b) = Str.last_char b.
Proof.
  intros Hb. induction a as [|c a IH]; [reflexivity|].
  rewrite append_cons. cbn [Str.last_char]. rewrite IH.
  destruct (a +:+ b) eqn:E; [|reflexivity].
  destruct a; [rewrite append_empty_l in E; congruence | discriminate].
Qed.

Lemma trailing_without_sep x :
  Str.has_char Path.sep x = false -> Path.hasTrailingSeparator x = false.
Proof.
  unfold Path.hasTrailingSeparator. induction x as [|c x IH]; [reflexivity|].
  cbn [Str.has_char Str.last_char]. intros H. apply orb_false_elim in H as [Hc Hx].
  destruct x; [rewrite Ascii.eqb_sym; exact Hc | exact (IH Hx)].
Qed.

Lemma trailing_app a b :
  b <> "" -> Path.hasTrailingSeparator (a +:+ b) = Path.hasTrailingSeparator b.
Proof. intros H. unfold Path.hasTrailingSeparator. rewrite last_char_app by exact H. reflexivity. Qed.

(** The pieces of a normalised absolute path are its names and empty
    strings. *)
Lemma split_normal s segs :
  normal_abs s segs ->
  Forall (fun x => x = "" \/ plain_name x = true) (Str.split Path.sep s)
  /\ List.filter Path.nonempty (Str.split Path.sep s) = segs.
Proof.
  intros [Hp Hs].
  assert (Hr : Forall (fun x => x = "" \/ plain_name x = true)
                 (Str.split Path.sep (Path.render segs))
               /\ List.filter Path.nonempty (Str.split Path.sep (Path.render segs)) = segs).
  { rewrite render_cons. cbn [Str.split]. rewrite Ascii.eqb_refl.
    destruct segs as [|x l] eqn:E;
      [cbn; split; [constructor; [left; reflexivity|];
                    constructor; [left; reflexivity | constructor] | reflexivity]|].
    rewrite <- E in *.
    rewrite split_join by (congruence || apply plain_without_sep; exact Hp).
    cbn [List.filter Path.nonempty]. rewrite filter_plain by exact Hp. split; [|reflexivity].
    constructor; [left; reflexivity|]. eapply Forall_impl; [exact Hp|]. auto. }
  destruct Hs as [-> | [Hne ->]]; [exact Hr|].
  change (Path.render segs +:+ "/") with (Path.render segs +:+ String Path.sep "").
  rewrite split_app. destruct Hr as [Hr1 Hr2]. cbn [Str.split]. split.
  - apply Forall_app. split; [exact Hr1 | constructor; [left; reflexivity | constructor]].
  - rewrite List.filter_app, Hr2. cbn. apply app_nil_r.
Qed.

Lemma locate_normal s segs : normal_abs s segs -> Fs.locate s = segs.
Proof. intros H. apply split_normal in H as [_ H]. exact H. Qed.

Lemma normal_absolute s segs : normal_abs s segs -> exists r, s = String Path.sep r.
Proof.
  intros [_ [-> | [_ ->]]]; rewrite render_cons; [eauto|].
  rewrite append_cons. eauto.
Qed.

Lemma normalize_absolute_eq s :
  Path.isAbsolute s = true ->
  let N := Path.normalizeSegments false [] (Str.split Path.sep s) in
  N <> [] ->
  Path.normalize s
  = if Path.hasTrailingSeparator s then Path.render N +:+ "/" else Path.render N.
Proof.
  intros Ha N Hne.
  assert (HN : Forall (fun x => plain_name x = true) N).
  { apply normalizeSegments_plain; [constructor | apply split_all_without_sep]. }
  destruct (join_plain_nonempty N HN Hne) as (c & r & Hj).
  unfold Path.normalize. destruct s as [|c0 s0]; [discriminate|].
  unfold Path.normalizeString. rewrite Ha. cbn [negb]. fold N. rewrite Hj.
  rewrite render_cons, Hj.
  destruct (Path.hasTrailingSeparator (String c0 s0)); reflexivity.
Qed.

(** An absolute path is normalised to a normalised absolute path. *)
Lemma normalize_absolute s :
  Path.isAbsolute s = true ->
  normal_abs (Path.normalize s) (Path.normalizeSegments false [] (Str.split Path.sep s)).
Proof.
  intros Ha. set (N := Path.normalizeSegments false [] (Str.split Path.sep s)).
  assert (HN : Forall (fun x => plain_name x = true) N).
  { apply normalizeSegments_plain; [constructor | apply split_all_without_sep]. }
  split; [exact HN|]. destruct N as [|x l] eqn:E.
  - left. unfold Path.normalize. destruct s as [|c0 s0]; [discriminate|].
    unfold Path.normalizeString. rewrite Ha. cbn [negb]. fold N. rewrite E. reflexivity.
  - pose proof (normalize_absolute_eq s Ha) as H. cbn zeta in H. fold N in H. rewrite E in H.
    rewrite H by discriminate.
    destruct (Path.hasTrailingSeparator s); [right; split; [discriminate | reflexivity] | left; reflexivity].
Qed.

(** [path.join] from an absolute directory gives a normalised absolute
    path. *)
Lemma join_absolute_normal (d : list string) (rest : list string) :
  exists segs, normal_abs (Path.join (Path.render d :: rest)) segs.
Proof.
  unfold Path.join. cbn [List.filter]. rewrite render_cons. cbn [Path.nonempty].
  eexists. apply normalize_absolute.
  destruct (List.filter Path.nonempty rest); reflexivity.
Qed.

(** An entry of a directory: its path has the name of the entry after the
    segments of the directory. *)
Lemma join_child dir segs name :
  normal_abs dir segs -> plain_name name = true ->
  Path.join [dir; name] = Path.render (segs ++ [name]).
Proof.
  intros Hd Hn. destruct (normal_absolute _ _ Hd) as [r Er].
  pose proof (plain_name_inv _ Hn) as (Hne & _ & _ & _ & Hsep).
  destruct name as [|c0 n0] eqn:En; [discriminate|]. rewrite <- En in *.
  unfold Path.join. cbn [List.filter]. rewrite Er at 1. cbn [Path.nonempty]. rewrite Hne.
  cbn [Str.join].
  change (dir +:+ "/" +:+ name) with (dir +:+ String Path.sep name).
  assert (Ha : Path.isAbsolute (dir +:+ String Path.sep name) = true).
  { rewrite Er, append_cons. reflexivity. }
  assert (HN : Path.normalizeSegments false [] (Str.split Path.sep (dir +:+ String Path.sep name))
               = (segs ++ [name])%list).
  { rewrite split_app, (split_without_sep _ _ Hsep).
    destruct (split_normal _ _ Hd) as [H1 H2].
    rewrite normalizeSegments_names
      by (apply Forall_app; split;
          [exact H1 | constructor; [right; exact Hn | constructor]]).
    cbn [rev app]. rewrite List.filter_app, H2. cbn [List.filter]. rewrite Hne. reflexivity. }
  pose proof (normalize_absolute_eq _ Ha) as H. cbn zeta in H. rewrite HN in H.
  rewrite H by (destruct segs; discriminate).
  rewrite trailing_app by discriminate.
  assert (Ht : Path.hasTrailingSeparator (String Path.sep name) = false).
  { change (String Path.sep name) with ("/" +:+ name). rewrite trailing_app by (rewrite En; discriminate).
    apply trailing_without_sep. exact Hsep. }
  rewrite Ht. reflexivity.
Qed.

Lemma child_normal dir segs name :
  normal_abs dir segs -> plain_name name = true ->
  normal_abs (Path.join [dir; name]) (segs ++ [name]).
Proof.
  intros Hd Hn. rewrite (join_child _ _ _ Hd Hn). split; [|left; reflexivity].
  apply Forall_app. split; [apply Hd | constructor; [exact Hn | constructor]].
Qed.

Lemma append_assoc (a b c : string) : (a +:+ b) +:+ c = a +:+ b +:+ c.
Proof.
  induction a as [|x a IH]; [reflexivity | rewrite !append_cons, IH; reflexivity].
Qed.

Lemma join_snoc segs name :
  segs <> [] ->
  Str.join "/" (segs ++ [name]) = Str.join "/" segs +:+ "/" +:+ name.
Proof.
  induction segs as [|x l IH]; [congruence|]. intros _.
  destruct l as [|y l]; [reflexivity|].
  change ((x :: y :: l) ++ [name])%list with (x :: y :: (l ++ [name]))%list.
  rewrite !join_cons2. change (y :: (l ++ [name]))%list with ((y :: l) ++ [name])%list.
  rewrite IH by discriminate. rewrite !append_assoc. reflexivity.
Qed.

Lemma child_no_trailing dir segs name :
  normal_abs dir segs -> plain_name name = true ->
  Path.hasTrailingSeparator (Path.join [dir; name]) = false.
Proof.
  intros Hd Hn. rewrite (join_child _ _ _ Hd Hn).
  pose proof (plain_name_inv _ Hn) as (Hne & _ & _ & _ & Hsep).
  assert (Hname : name <> "") by (destruct name; [discriminate | discriminate]).
  assert (E : exists a, Path.render (segs ++ [name]) = a +:+ name).
  { destruct segs as [|x l].
    - exists "/". reflexivity.
    - exists ("/" +:+ Str.join "/" (x :: l) +:+ "/").
      unfold Path.render. rewrite join_snoc by discriminate.
      rewrite !append_assoc. reflexivity. }
  destruct E as [a ->]. rewrite trailing_app by exact Hname.
  apply trailing_without_sep. exact Hsep.
Qed.

(** ** Copies in the component directory *)

Lemma replace_absent file pattern replacement :
  Str.contains pattern file = false -> JsString.replace file pattern replacement = file.
Proof.
  unfold Str.contains, JsString.replace.
  destruct (Str.find_first pattern file) as [[before after]|]; [discriminate | reflexivity].
Qed.

Lemma writeFileSync_keeps_nondir m p data m' k :
  Fs.writeFileSync m p data = inr m' -> Fs.is_dir m k = false -> Fs.is_dir m' k = false.
Proof.
  intros Hw Hd. apply writeFileSync_inr in Hw as (-> & _).
  unfold Fs.is_dir in *. destruct k as [|seg k]; [discriminate|].
  cbn [Fs.node_at] in *. destruct (decide (Fs.locate p = seg :: k)) as [->|Hn].
  - rewrite lookup_insert_eq. reflexivity.
  - rewrite lookup_insert_ne by exact Hn. exact Hd.
Qed.

(** ** Files that can be written *)

Lemma can_write_inv m p :
  can_write m p = true ->
  Fs.locate p <> [] /\ Path.hasTrailingSeparator p = false
  /\ Fs.is_dir m (Fs.parent (Fs.locate p)) = true
  /\ Fs.is_dir m (Fs.locate p) = false.
Proof.
  unfold can_write. intros H.
  apply andb_prop in H as [H H4]. apply andb_prop in H as [H H3].
  apply andb_prop in H as [H1 H2]. apply negb_true_iff in H2, H4.
  repeat split; try assumption. destruct (Fs.locate p); [discriminate | discriminate].
Qed.

Lemma can_write_writeFileSync m p data :
  can_write m p = true ->
  Fs.writeFileSync m p data = inr (<[Fs.locate p := Fs.File data]> m).
Proof.
  intros H. apply can_write_inv in H as (Hne & Ht & Hp & Hd).
  apply writeFileSync_ok; [exact Hne | exact Ht |].
  unfold Fs.is_file, Fs.is_dir in *. rewrite node_at_lookup in * by exact Hne.
  destruct (m !! Fs.locate p) as [[old|]|];
    [left; reflexivity | discriminate | right; split; [reflexivity | exact Hp]].
Qed.

Lemma can_write_kept m q data m' p :
  Fs.writeFileSync m q data = inr m' -> can_write m p = true -> can_write m' p = true.
Proof.
  intros Hw H. apply can_write_inv in H as (Hne & Ht & Hp & Hd).
  unfold can_write. rewrite Ht.
  rewrite (writeFileSync_keeps_dir _ _ _ _ _ Hw Hp).
  rewrite (writeFileSync_keeps_nondir _ _ _ _ _ Hw Hd).
  destruct (Fs.locate p); [congruence | reflexivity].
Qed.

Lemma readable_iff m p :
  (exists data, Fs.readFileSync m p = inr data) <->
  Fs.is_file m (Fs.locate p) = true /\ Path.hasTrailingSeparator p = false.
Proof.
  unfold Fs.readFileSync, Fs.is_file.
  destruct (Fs.node_at m (Fs.locate p)) as [[old|]|].
  - destruct (Path.hasTrailingSeparator p); split.
    + intros [data H]. discriminate.
    + intros [_ H]. discriminate.
    + intros _. split; reflexivity.
    + intros _. eexists. reflexivity.
  - split; [intros [data H] | intros [H _]]; discriminate.
  - split; [intros [data H] | intros [H _]]; discriminate.
Qed.

Section Copies.

Variables (cd td p name : string) (re : RegExp.regex) (csegs : list string).
Variable templateFiles : list string.

Hypothesis cd_normal : normal_abs cd csegs.
Hypothesis p_compiles : RegExp.parse p = RegExp.Compiled re.

Lemma ready_after_write m path data m' :
  Fs.writeFileSync m path data = inr m' -> ready td p csegs templateFiles m -> ready td p csegs templateFiles m'.
Proof.
  intros Hw [Hd Hf]. split; [eapply writeFileSync_keeps_dir; eassumption|].
  intros file Hin. destruct (Hf file Hin) as (H1 & H2 & H3 & H4 & H5).
  repeat split; try assumption.
  - eapply writeFileSync_keeps_file; eassumption.
  - eapply writeFileSync_keeps_nondir; eassumption.
Qed.

Lemma eachFile_copies file st :
  In file templateFiles -> ready td p csegs templateFiles (files st) ->
  exists data,
    eachFile cd td (Val (JSON.Str p)) name file st
    = (Ret tt, {| files := <[(csegs ++ [file])%list := Fs.File data]> (files st);
                  console := console st |})
    /\ Fs.writeFileSync (files st) (Path.join [cd; file]) data
       = inr (<[(csegs ++ [file])%list := Fs.File data]> (files st)).
Proof.
  intros Hin [Hd Hf]. destruct (Hf file Hin) as (Hn & Hc & Hr & Ht & Hk).
  rewrite eachFile_unfold. rewrite (replace_absent _ _ _ Hc).
  unfold Fs.is_file in Hr. unfold Fs.readFileSync. rewrite Ht.
  destruct (Fs.node_at (files st) (Fs.locate (Path.join [td; file]))) as [[content|]|];
    try discriminate.
  rewrite p_compiles. exists (RegExp.replace content re name).
  assert (Hloc : Fs.locate (Path.join [cd; file]) = (csegs ++ [file])%list).
  { apply locate_normal. apply child_normal; assumption. }
  assert (Hw : Fs.writeFileSync (files st) (Path.join [cd; file])
                 (RegExp.replace content re name)
               = inr (<[(csegs ++ [file])%list := Fs.File (RegExp.replace content re name)]>
                        (files st))).
  { rewrite <- Hloc. apply writeFileSync_ok.
    - rewrite Hloc. destruct csegs; discriminate.
    - eapply child_no_trailing; eassumption.
    - rewrite Hloc. unfold Fs.is_file, Fs.is_dir in *.
      rewrite node_at_lookup in * by (destruct csegs; discriminate).
      destruct (files st !! (csegs ++ [file])%list) as [[old|]|]; [left; reflexivity | discriminate|].
      right. split; [reflexivity|]. unfold Fs.parent. rewrite removelast_last. exact Hd. }
  rewrite Hw. split; reflexivity.
Qed.

Lemma forEach_copies l st :
  (forall file, In file l -> In file templateFiles) ->
  ready td p csegs templateFiles (files st) ->
  exists st',
    forEach l (eachFile cd td (Val (JSON.Str p)) name) st = (Ret tt, st')
    /\ ready td p csegs templateFiles (files st')
    /\ forall file, In file l -> Fs.is_file (files st') (csegs ++ [file]) = true.
Proof.
  revert st. induction l as [|x l IH]; intros st Hsub Hready.
  - exists st. split; [reflexivity|]. split; [exact Hready | intros file []].
  - destruct (eachFile_copies x st (Hsub x (or_introl eq_refl)) Hready) as (data & Hx & Hw).
    pose proof (ready_after_write _ _ _ _ Hw Hready) as Hready1.
    destruct (IH {| files := <[(csegs ++ [x])%list := Fs.File data]> (files st);
                    console := console st |}
                 (fun file Hin => Hsub file (or_intror Hin)) Hready1)
      as (st' & Hl & Hready' & Hfiles).
    exists st'. cbn [forEach]. unfold bind. rewrite Hx. split; [exact Hl|].
    split; [exact Hready'|]. intros file [<- | Hin]; [|apply Hfiles; exact Hin].
    apply (forEach_keeps_file cd td (Val (JSON.Str p)) name l _ _ _ _ Hl).
    cbn [files]. unfold Fs.is_file. rewrite node_at_lookup by (destruct csegs; discriminate).
    rewrite lookup_insert_eq. reflexivity.
Qed.

End Copies.

(** C10, as the code has it: for a component name, one with path
    separators too, when the configuration is read, [mkdirSync] succeeds for
    the component directory, the template directory can be listed, the
    placeholder is a string that [new RegExp] accepts, the template entries
    are readable files whose names are entry names that do not contain the
    placeholder, and no directory has the name of a copy, the run completes,
    the component directory and every directory above it exist after it, and
    every entry has its copy in that innermost directory. *)
Theorem nested_directories_created proc name st c t p re m0 templateFiles :
  config_fields proc st = Some (c, t, Val (JSON.Str p)) ->
  RegExp.parse p = RegExp.Compiled re ->
  Fs.mkdirSync (files st) (componentDir proc c name) = inr m0 ->
  Fs.readdirSync m0 (templateDir proc t) = inr templateFiles ->
  (forall file, In file templateFiles ->
     plain_name file = true
     /\ Str.contains p file = false
     /\ (exists data, Fs.readFileSync m0 (templateFilePath proc t file) = inr data)
     /\ Fs.is_dir m0 (Fs.locate (componentDir proc c name) ++ [file]) = false) ->
  fst (run proc name st) = Completed
  /\ forallb (Fs.is_dir (files (snd (run proc name st))))
       (Fs.chain (Fs.locate (componentDir proc c name))) = true
  /\ forall file, In file templateFiles ->
       Fs.is_file (files (snd (run proc name st)))
         (Fs.locate (componentDir proc c name) ++ [file]) = true.
Proof.
  intros Hc Hre Hmk Hl Hfiles.
  destruct (join_absolute_normal (dirname proc) [c; name]) as [csegs Hn].
  fold (__dirname proc) in Hn. fold (componentDir proc c name) in Hn.
  set (cd := componentDir proc c name) in *. set (td := templateDir proc t) in *.
  rewrite (locate_normal _ _ Hn) in *.
  assert (Hready : ready td p csegs templateFiles m0).
  { split.
    - rewrite <- (locate_normal _ _ Hn). eapply mkdirSync_is_dir. exact Hmk.
    - intros file Hin. destruct (Hfiles file Hin) as (H1 & H2 & [data H3] & H4).
      unfold templateFilePath in H3. fold td in H3.
      apply readFileSync_inr in H3 as [H3 H5].
      repeat split; try assumption. unfold Fs.is_file. rewrite H3. reflexivity. }
  destruct (forEach_copies cd td p name re csegs templateFiles Hn Hre templateFiles
              {| files := m0; console := console (prompted st) |}
              (fun file Hin => Hin) Hready)
    as (st' & Hloop & _ & Hcopies).
  rewrite (run_configured proc name st c t _ Hc). rewrite materialize_unfold.
  cbn [prompted files console] in *. fold cd. fold td. rewrite Hmk. cbn zeta. rewrite Hl.
  rewrite Hloop. unfold print. cbn [fst snd outcome_of files].
  split; [reflexivity|]. split; [|exact Hcopies].
  apply forallb_forall. intros d Hd.
  apply (forEach_keeps_dir cd td (Val (JSON.Str p)) name templateFiles _ _ _ d Hloop).
  cbn [files]. pose proof (mkdirSync_chain _ _ _ Hmk) as Hch.
  rewrite forallb_forall in Hch. apply Hch. rewrite (locate_normal _ _ Hn). exact Hd.
Qed.

Lemma nested_directories_created_witness :
  let st := project "COMPONENT_NAME" [("README.md", "# COMPONENT_NAME")] in
  fst (run proj "a/b" st) = Completed
  /\ forallb (Fs.is_dir (files (snd (run proj "a/b" st))))
       (Fs.chain (Fs.locate (componentDir proj "./src/components" "a/b"))) = true
  /\ forall file, In file ["README.md"] ->
       Fs.is_file (files (snd (run proj "a/b" st)))
         (Fs.locate (componentDir proj "./src/components" "a/b") ++ [file]) = true.
Proof.
  intros st.
  apply (nested_directories_created proj "a/b" st "./src/components" "./template"
           "COMPONENT_NAME" (literal "COMPONENT_NAME")
           (<[ ["proj"; "src"; "components"; "a"; "b"] := Fs.Dir ]>
             (<[ ["proj"; "src"; "components"; "a"] := Fs.Dir ]>
               (<[ ["proj"; "src"; "components"] := Fs.Dir ]>
                 (<[ ["proj"; "src"] := Fs.Dir ]> (files st)))))
           ["README.md"]).
  - vm_compute. reflexivity.
  - vm_compute. reflexivity.
  - compute_done.
  - vm_compute. reflexivity.
  - intros file [<- | []]. repeat split; try (vm_compute; reflexivity).
    eexists. vm_compute. reflexivity.
Defined.

(** The directories of the component [a/b] in the project. *)
Example chain_of_a_b :
  Fs.chain (Fs.locate (componentDir proj "./src/components" "a/b"))
  = [ ["proj"]; ["proj"; "src"]; ["proj"; "src"; "components"];
      ["proj"; "src"; "components"; "a"]; ["proj"; "src"; "components"; "a"; "b"] ].
Proof. vm_compute. reflexivity. Qed.

(** ** Files under other names *)

(** When the names of the copies are names of directory entries (no
    separator in them), the files of the component directory under other
    names are left as they are. *)
Lemma other_names_untouched proc name st c t p g :
  config_fields proc st = Some (c, t, Val (JSON.Str p)) ->
  forallb (Fs.is_dir (files st)) (Fs.chain (Fs.locate (componentDir proc c name))) = true ->
  (forall templateFiles file,
      Fs.readdirSync (files st) (templateDir proc t) = inr templateFiles ->
      In file templateFiles ->
      plain_name (JsString.replace file p name) = true
      /\ JsString.replace file p name <> g) ->
  files (snd (run proc name st)) !! (Fs.locate (componentDir proc c name) ++ [g])%list
  = files st !! (Fs.locate (componentDir proc c name) ++ [g])%list.
Proof.
  intros Hc Hd Hg.
  rewrite (run_configured proc name st c t _ Hc). cbn [snd].
  apply (materialize_frame proc c t p name (prompted st)); [exact Hd|].
  intros templateFiles file Hr Hin. destruct (Hg _ _ Hr Hin) as [Hp Hne].
  destruct (join_absolute_normal (dirname proc) [c; name]) as [csegs Hn].
  fold (__dirname proc) in Hn. fold (componentDir proc c name) in Hn.
  unfold componentFilePath.
  rewrite (locate_normal _ _ (child_normal _ _ _ Hn Hp)), (locate_normal _ _ Hn).
  intros E. apply app_inj_tail in E as [_ E]. congruence.
Qed.

(** * Further properties of the script *)

(** ** Failures before anything is created *)

(** X1: when something is at the path of the configuration file but cannot
    be read as a file (a directory, say), the [catch] of [readConfig] prints
    the error of [readFileSync] and the run exits with status 1, the file
    system being as before. *)
Theorem config_unreadable_exits proc answer st e :
  Fs.existsSync (files st) (configPath proc) = true ->
  Fs.readFileSync (files st) (configPath proc) = inl e ->
  run proc answer st
  = (Exited 1,
     {| files := files st;
        console := (console st ++
          [prompt; ErrorWith "Error reading the config file:" (FsError e)])%list |}).
Proof.
  intros Hx Hr. rewrite run_createComponent.
  assert (H : readConfig proc (prompted st)
              = (Exit 1, {| files := files st;
                            console := (console (prompted st) ++
                              [ErrorWith "Error reading the config file:" (FsError e)])%list |})).
  { unfold readConfig, bind at 1, fs_existsSync. cbn [prompted files]. rewrite Hx.
    cbn [negb]. unfold bind at 1, ret at 1.
    unfold try_catch, bind at 1, fs_readFileSync, fs_read. cbn [prompted files].
    rewrite Hr. reflexivity. }
  rewrite (createComponent_exit _ _ _ _ _ H). cbn [fst snd outcome_of prompted console].
  rewrite <- app_assoc. reflexivity.
Qed.

Lemma config_unreadable_exits_witness :
  let st := {| files := list_to_map [ (["proj"], Fs.Dir);
                                      (["proj"; "cg.config.json"], Fs.Dir) ];
               console := [] |} in
  run proj "Button" st
  = (Exited 1,
     {| files := files st;
        console := (console st ++
          [prompt; ErrorWith "Error reading the config file:" (FsError Fs.EISDIR)])%list |}).
Proof.
  intros st. apply (config_unreadable_exits proj "Button" st Fs.EISDIR).
  - vm_compute. reflexivity.
  - vm_compute. reflexivity.
Defined.

(** X2: the configuration is not validated when it is read.  When its text
    is JSON but does not give an object with [COMPONENTS_DIR] and
    [TEMPLATE_DIR] as strings, the run ends with an uncaught [TypeError]
    (from the property access on [null], or from [path.join]) before
    [mkdirSync]: nothing is created and nothing but the question is
    printed. *)
Theorem config_without_directories_throws proc answer st text v :
  Fs.readFileSync (files st) (configPath proc) = inr text ->
  JSON.parse text = JSON.Parsed v ->
  config_fields proc st = None ->
  run proc answer st = (Uncaught TypeError, prompted st).
Proof.
  intros Hr Hp Hc. rewrite run_createComponent.
  assert (H : createComponent proc answer (prompted st) = (Throw TypeError, prompted st)).
  { unfold config_fields in Hc. rewrite Hr, Hp in Hc.
    unfold createComponent, readConfig, bind at 1 2 3, fs_existsSync.
    cbn [prompted files]. rewrite (readFileSync_exists _ _ _ Hr). cbn [negb].
    unfold ret at 1. unfold try_catch, bind at 1, fs_readFileSync at 1, fs_read at 1.
    cbn [prompted files]. rewrite Hr. unfold JSON_parse. rewrite Hp. unfold ret at 1.
    destruct v as [| | | | |members]; try reflexivity.
    unfold bind at 1, get at 1, ret at 1. fold (field "COMPONENTS_DIR" members).
    destruct (field "COMPONENTS_DIR" members) as [|[| | |c| |]]; try reflexivity.
    unfold bind at 1, path_join at 1. cbn [strings]. unfold ret at 1.
    unfold bind at 1, get at 1, ret at 1. fold (field "TEMPLATE_DIR" members).
    destruct (field "TEMPLATE_DIR" members) as [|[| | |t| |]]; try reflexivity.
    discriminate. }
  rewrite H. reflexivity.
Qed.

Lemma config_without_directories_throws_witness :
  run proj "Button" (project_with ("{" +:+ quoted "COMPONENTS_DIR" +:+ ": 1}") [])
  = (Uncaught TypeError,
     prompted (project_with ("{" +:+ quoted "COMPONENTS_DIR" +:+ ": 1}") []))
  /\ run proj "Button" (project_with "null" [])
     = (Uncaught TypeError, prompted (project_with "null" [])).
Proof.
  split.
  - eapply (config_without_directories_throws proj "Button");
      vm_compute; reflexivity.
  - eapply (config_without_directories_throws proj "Button");
      vm_compute; reflexivity.
Defined.

(** X3: when a regular file stands where the component directory, or a
    directory above it, is to be, [mkdirSync] throws and the run ends there:
    the template directory is not read and the file system is as before. *)
Theorem blocked_directory_fails proc name st c t placeholder e :
  config_fields proc st = Some (c, t, placeholder) ->
  Fs.mkdirSync (files st) (componentDir proc c name) = inl e ->
  run proc name st = (Uncaught (FsError e), prompted st).
Proof.
  intros Hc Hm. rewrite (run_configured proc name st c t placeholder Hc).
  rewrite materialize_unfold. cbn [prompted files]. rewrite Hm. reflexivity.
Qed.

Lemma blocked_directory_fails_witness :
  let st := {| files := <[ ["proj"; "src"] := Fs.File "not a directory" ]>
                          (files (project "COMPONENT_NAME" []));
               console := [] |} in
  run proj "Button" st = (Uncaught (FsError Fs.ENOTDIR), prompted st).
Proof.
  intros st.
  apply (blocked_directory_fails proj "Button" st "./src/components" "./template"
           (Val (JSON.Str "COMPONENT_NAME")) Fs.ENOTDIR).
  - vm_compute. reflexivity.
  - vm_compute. reflexivity.
Defined.

(** ** An empty template directory *)

(** X4: with no entry in the template directory the callback is never
    called: the run completes with the component directory made and nothing
    else changed, whatever the placeholder of the configuration is, even a
    missing one. *)
Theorem empty_template_directory_completes proc name st c t placeholder m1 :
  config_fields proc st = Some (c, t, placeholder) ->
  Fs.mkdirSync (files st) (componentDir proc c name) = inr m1 ->
  Fs.readdirSync m1 (templateDir proc t) = inr [] ->
  run proc name st
  = (Completed, {| files := m1;
                   console := (console st ++ [prompt; success name])%list |}).
Proof.
  intros Hc Hm Hl. rewrite (run_configured proc name st c t placeholder Hc).
  rewrite materialize_unfold. cbn [prompted files console]. rewrite Hm. cbn zeta.
  rewrite Hl. cbn [forEach]. unfold ret, print. cbn [fst snd outcome_of files console].
  rewrite <- app_assoc. reflexivity.
Qed.

Lemma empty_template_directory_completes_witness :
  let st := project_with ("{" +:+ quoted "COMPONENTS_DIR" +:+ ":" +:+ quoted "out" +:+ ","
                              +:+ quoted "TEMPLATE_DIR" +:+ ":" +:+ quoted "template" +:+ "}")
                         [] in
  run proj "Button" st
  = (Completed, {| files := <[ ["proj"; "out"; "Button"] := Fs.Dir ]>
                            (<[ ["proj"; "out"] := Fs.Dir ]> (files st));
                   console := (console st ++ [prompt; success "Button"])%list |}).
Proof.
  intros st.
  apply (empty_template_directory_completes proj "Button" st "out" "template" Undefined).
  - vm_compute. reflexivity.
  - compute_done.
  - vm_compute. reflexivity.
Defined.

(** ** What every run prints and keeps *)

Lemma createComponent_unconfigured proc name st r st' :
  config_fields proc st = None ->
  createComponent proc name st = (r, st') ->
  files st' = files st
  /\ (((r <> Ret tt /\ forall code, r <> Exit code) /\ console st' = console st)
      \/ (r = Exit 1 /\ exists l, console st' = (console st ++ [l])%list
                                  /\ is_error_line l = true)).
Proof.
  unfold config_fields. intros Hc.
  unfold createComponent, readConfig, bind at 1 2 3, fs_existsSync.
  destruct (Fs.existsSync (files st) (configPath proc)) eqn:Hx; cbn [negb].
  - unfold ret at 1. unfold try_catch, bind at 1, fs_readFileSync at 1, fs_read at 1.
    destruct (Fs.readFileSync (files st) (configPath proc)) as [e|text] eqn:Hr.
    + unfold bind, print, exit. intros [= <- <-]. cbn [files console].
      split; [reflexivity|]. right. split; [reflexivity|]. eexists. split; reflexivity.
    + unfold JSON_parse. destruct (JSON.parse text) as [v| |] eqn:Hp.
      * unfold ret at 1.
        destruct v as [| | | | |members];
          try (intros [= <- <-]; split; [reflexivity | left; split; [split; [|intros code]; discriminate | reflexivity]]).
        unfold bind at 1, get at 1, ret at 1. fold (field "COMPONENTS_DIR" members).
        destruct (field "COMPONENTS_DIR" members) as [|[| | |c| |]];
          try (intros [= <- <-]; split; [reflexivity | left; split; [split; [|intros code]; discriminate | reflexivity]]).
        unfold bind at 1, path_join at 1. cbn [strings]. unfold ret at 1.
        unfold bind at 1, get at 1, ret at 1. fold (field "TEMPLATE_DIR" members).
        destruct (field "TEMPLATE_DIR" members) as [|[| | |t| |]];
          try (intros [= <- <-]; split; [reflexivity | left; split; [split; [|intros code]; discriminate | reflexivity]]).
        discriminate.
      * unfold throw, bind, print, exit. intros [= <- <-]. cbn [files console].
        split; [reflexivity|]. right. split; [reflexivity|]. eexists. split; reflexivity.
      * unfold unmodelled. intros [= <- <-].
        split; [reflexivity | left; split; [split; [|intros code]; discriminate | reflexivity]].
  - unfold bind, print, exit. intros [= <- <-]. cbn [files console].
    split; [reflexivity|]. right. split; [reflexivity|]. eexists. split; reflexivity.
Qed.

Lemma materialize_outcome proc c t placeholder name st r st' :
  materialize proc c t placeholder name st = (r, st') -> forall code, r <> Exit code.
Proof.
  rewrite materialize_unfold.
  destruct (Fs.mkdirSync _ _) as [e|m1]; [intros [= <- <-]; discriminate|].
  cbn zeta.
  destruct (Fs.readdirSync _ _) as [e|l]; [intros [= <- <-]; discriminate|].
  destruct (forEach l _ _) as [r2 st2] eqn:Hf.
  assert (H : forall code, r2 <> Exit code).
  { clear -Hf. revert Hf. generalize {| files := m1; console := console st |}.
    induction l as [|x l IH]; intros s0 Hf; [injection Hf as <- <-; discriminate|].
    cbn [forEach] in Hf. unfold bind in Hf.
    destruct (eachFile _ _ _ _ x s0) as [r1 s1] eqn:Hx.
    destruct r1 as [[]| | |]; [eapply IH; eassumption | | |];
      injection Hf as <- <-; try discriminate.
    exfalso. revert Hx. destruct placeholder as [|[| | |p| |]];
      try (unfold eachFile, pattern_of, bind, unmodelled; discriminate).
    rewrite eachFile_unfold.
    destruct (Fs.readFileSync _ _); [discriminate|].
    destruct (RegExp.parse p); try discriminate.
    destruct (Fs.writeFileSync _ _ _); discriminate. }
  destruct r2 as [[]| | |]; unfold print; intros [= <- <-]; try discriminate.
  exact H.
Qed.

Lemma materialize_console proc c t placeholder name st r st' :
  materialize proc c t placeholder name st = (r, st') ->
  (r = Ret tt /\ console st' = (console st ++ [success name])%list)
  \/ (r <> Ret tt /\ console st' = console st).
Proof.
  rewrite materialize_unfold.
  destruct (Fs.mkdirSync _ _) as [e|m1]; [intros [= <- <-]; right; split; [discriminate | reflexivity]|].
  cbn zeta.
  destruct (Fs.readdirSync _ _) as [e|l]; [intros [= <- <-]; right; split; [discriminate | reflexivity]|].
  destruct (forEach l _ _) as [r2 st2] eqn:Hf.
  apply forEach_console in Hf. cbn [console] in Hf.
  destruct r2 as [[]| | |]; unfold print; intros [= <- <-]; cbn [console].
  - left. split; [reflexivity | congruence].
  - right. split; [discriminate | exact Hf].
  - right. split; [discriminate | exact Hf].
  - right. split; [discriminate | exact Hf].
Qed.

(** X5: what the script itself prints with [console.log] and
    [console.error], for a run that the model follows to its end (what the
    runtime reports about an uncaught error is not part of the console
    here).  After the question, a run that completes prints the success
    message and nothing else; a run that ends with an uncaught error prints
    nothing more; a run that ends with [process.exit(1)] prints the one
    error line of [readConfig]; and a run ends in no other way. *)
Theorem success_message_iff_completed proc answer st :
  fst (run proc answer st) <> OutsideModel ->
  exists added,
    console (snd (run proc answer st)) = (console st ++ prompt :: added)%list
    /\ ((fst (run proc answer st) = Completed /\ added = [success answer])
        \/ ((exists e, fst (run proc answer st) = Uncaught e) /\ added = [])
        \/ (fst (run proc answer st) = Exited 1
            /\ exists l, added = [l] /\ is_error_line l = true)).
Proof.
  rewrite run_createComponent. cbn [fst snd].
  destruct (createComponent proc answer (prompted st)) as [r st'] eqn:Hcc. cbn [fst snd].
  intros Hin.
  destruct (config_fields proc (prompted st)) as [[[c t] placeholder]|] eqn:Hc.
  - rewrite (createComponent_configured _ _ _ _ _ _ Hc) in Hcc.
    pose proof (materialize_outcome _ _ _ _ _ _ _ _ Hcc) as Hex.
    apply materialize_console in Hcc as [[-> Hcon] | [Hr Hcon]]; rewrite Hcon;
      cbn [prompted console]; rewrite <- ?app_assoc.
    + exists [success answer]. split; [reflexivity|]. left. split; reflexivity.
    + exists []. split; [reflexivity|]. right. left. split; [|reflexivity].
      destruct r as [[]| | |]; cbn [outcome_of] in *;
        [congruence | eauto | exfalso; exact (Hex code eq_refl) | congruence].
  - apply (createComponent_unconfigured _ _ _ _ _ Hc) in Hcc
      as [_ [[[Hr Hu] Hcon] | [-> (l & Hcon & Hl)]]]; rewrite Hcon;
      cbn [prompted console]; rewrite <- ?app_assoc.
    + exists []. split; [reflexivity|]. right. left. split; [|reflexivity].
      destruct r as [[]| | |]; cbn [outcome_of] in *;
        [congruence | eauto | exfalso; exact (Hu code eq_refl) | congruence].
    + exists [l]. split; [reflexivity|]. right. right. split; [reflexivity|]. eauto.
Qed.

Lemma success_message_iff_completed_witness :
  let st := project "COMPONENT_NAME"
              [("COMPONENT_NAME.js", "export const COMPONENT_NAME = () => {};")] in
  exists added,
    console (snd (run proj "Button" st)) = (console st ++ prompt :: added)%list
    /\ ((fst (run proj "Button" st) = Completed /\ added = [success "Button"])
        \/ ((exists e, fst (run proj "Button" st) = Uncaught e) /\ added = [])
        \/ (fst (run proj "Button" st) = Exited 1
            /\ exists l, added = [l] /\ is_error_line l = true)).
Proof.
  intros st. apply (success_message_iff_completed proj "Button" st).
  vm_compute. discriminate.
Defined.

Lemma writeFileSync_same_kind m p data m' k n :
  Fs.writeFileSync m p data = inr m' -> same_kind n (m !! k) -> same_kind n (m' !! k).
Proof.
  intros Hw Hk. apply writeFileSync_inr in Hw as (-> & Hne & _ & Hcase).
  destruct (decide (Fs.locate p = k)) as [<-|Hn];
    [|rewrite lookup_insert_ne by exact Hn; exact Hk].
  rewrite lookup_insert_eq. unfold Fs.is_file in Hcase.
  rewrite node_at_lookup in Hcase by exact Hne.
  destruct n as [old|]; cbn [same_kind] in *; [eauto|].
  rewrite Hk in Hcase. destruct Hcase as [? | [? _]]; discriminate.
Qed.

(** X6: a run never removes anything and never changes the kind of an
    entry, however it ends: a path where a directory was holds a directory
    after the run, and a path where a regular file was holds a regular file
    (with its text, or with the text of a copy). *)
Theorem run_keeps_every_entry proc answer st k n :
  files st !! k = Some n ->
  same_kind n (files (snd (run proc answer st)) !! k).
Proof.
  intros Hk.
  assert (H0 : same_kind n (files st !! k)).
  { rewrite Hk. destruct n; cbn; eauto. }
  rewrite run_createComponent. cbn [snd].
  destruct (createComponent proc answer (prompted st)) as [r st'] eqn:Hcc. cbn [snd].
  destruct (config_fields proc (prompted st)) as [[[c t] placeholder]|] eqn:Hc.
  - rewrite (createComponent_configured _ _ _ _ _ _ Hc) in Hcc.
    rewrite materialize_unfold in Hcc. cbn [prompted files console] in Hcc.
    destruct (Fs.mkdirSync _ _) as [e|m1] eqn:Hm; [injection Hcc as _ <-; exact H0|].
    cbn zeta in Hcc.
    assert (H1 : same_kind n (m1 !! k)).
    { rewrite (mkdirSync_keeps _ _ _ _ _ Hm Hk). destruct n; cbn; eauto. }
    destruct (Fs.readdirSync _ _) as [e|l]; [injection Hcc as _ <-; exact H1|].
    destruct (forEach l _ _) as [r2 st2] eqn:Hf.
    assert (H2 : same_kind n (files st2 !! k)).
    { apply (forEach_invariant _ (fun s => same_kind n (files s !! k)) ) in Hf;
        [exact Hf | | exact H1].
      intros x s r0 s' Hx HQ. apply eachFile_step in Hx as [-> | (p & data & Hw & _)];
        [exact HQ | eapply writeFileSync_same_kind; eassumption]. }
    destruct r2 as [[]| | |]; unfold print in Hcc; injection Hcc as _ <-; exact H2.
  - apply (createComponent_unconfigured _ _ _ _ _ Hc) in Hcc as [-> _]. exact H0.
Qed.

Lemma run_keeps_every_entry_witness :
  same_kind (Fs.File "keep me")
    (files (snd (run proj "Button" project_again))
       !! ["proj"; "src"; "components"; "Button"; "notes.md"])
  /\ same_kind (Fs.File "old")
       (files (snd (run proj "Button" project_again))
          !! ["proj"; "src"; "components"; "Button"; "Button.js"]).
Proof.
  split.
  - apply (run_keeps_every_entry proj "Button" project_again). vm_compute. reflexivity.
  - apply (run_keeps_every_entry proj "Button" project_again). vm_compute. reflexivity.
Defined.

(** ** Failures in the loop *)

Lemma eachFile_failure cd td placeholder name file st r st' :
  eachFile cd td placeholder name file st = (r, st') -> r <> Ret tt -> st' = st.
Proof.
  intros H Hr. destruct placeholder as [|[| | |p| |]];
    try (unfold eachFile, pattern_of, bind, unmodelled in H; congruence).
  rewrite eachFile_unfold in H.
  destruct (Fs.readFileSync _ _) as [e|content]; [congruence|].
  destruct (RegExp.parse p) as [re| |]; try congruence.
  destruct (Fs.writeFileSync _ _ _) as [e|m]; congruence.
Qed.

Lemma forEach_app {A} (f : A -> M unit) l1 l2 st :
  forEach (l1 ++ l2) f st
  = match forEach l1 f st with
    | (Ret _, st1) => forEach l2 f st1
    | other => other
    end.
Proof.
  revert st. induction l1 as [|x l1 IH]; intros st; [reflexivity|].
  cbn [app forEach]. unfold bind. destruct (f x st) as [[[]| | |] st1]; [apply IH | reflexivity..].
Qed.

(** X7: no rollback and no skipping.  When the callback fails for an entry,
    the loop ends with that failure, the entries after it are not
    processed, and the state is the one the entries before it left: their
    copies stay, and the failing call itself has written nothing. *)
Theorem copies_before_failure_stay cd td placeholder name before file after st st1 r st2 :
  forEach before (eachFile cd td placeholder name) st = (Ret tt, st1) ->
  eachFile cd td placeholder name file st1 = (r, st2) ->
  r <> Ret tt ->
  forEach (before ++ file :: after) (eachFile cd td placeholder name) st = (r, st1).
Proof.
  intros Hb Hf Hr. rewrite forEach_app, Hb. cbn [forEach]. unfold bind.
  rewrite Hf. rewrite (eachFile_failure _ _ _ _ _ _ _ _ Hf Hr).
  destruct r as [[]| | |]; [congruence | reflexivity..].
Qed.

Lemma copies_before_failure_stay_witness :
  let st := {| files := <[ ["proj"; "out"] := Fs.Dir ]>
                          (<[ ["proj"; "template"; "sub"] := Fs.Dir ]>
                             (files (project "COMPONENT_NAME"
                                       [("a.js", "COMPONENT_NAME"); ("z.js", "COMPONENT_NAME")])));
               console := [] |} in
  let st1 := {| files := <[ ["proj"; "out"; "a.js"] := Fs.File "Button" ]> (files st);
                console := [] |} in
  forEach (["a.js"] ++ "sub" :: ["z.js"])
    (eachFile "/proj/out" "/proj/template" (Val (JSON.Str "COMPONENT_NAME")) "Button") st
  = (Throw (FsError Fs.EISDIR), st1).
Proof.
  intros st st1.
  apply (copies_before_failure_stay "/proj/out" "/proj/template"
           (Val (JSON.Str "COMPONENT_NAME")) "Button" ["a.js"] "sub" ["z.js"] st st1
           (Throw (FsError Fs.EISDIR)) st1).
  - compute_done.
  - compute_done.
  - discriminate.
Defined.

(** X8: a directory among the template entries is not copied and not
    descended into: the callback tries to read it as a file and throws
    [EISDIR], leaving the state as it is. *)
Theorem directory_entry_fails cd td p name file st :
  Fs.is_dir (files st) (Fs.locate (Path.join [td; file])) = true ->
  eachFile cd td (Val (JSON.Str p)) name file st = (Throw (FsError Fs.EISDIR), st).
Proof.
  intros H. rewrite eachFile_unfold. unfold Fs.readFileSync. unfold Fs.is_dir in H.
  destruct (Fs.node_at (files st) (Fs.locate (Path.join [td; file]))) as [[data|]|];
    try discriminate.
  reflexivity.
Qed.

Lemma directory_entry_fails_witness :
  let st := {| files := <[ ["proj"; "template"; "sub"] := Fs.Dir ]>
                          (files (project "COMPONENT_NAME" []));
               console := [] |} in
  eachFile "/proj/out" "/proj/template" (Val (JSON.Str "COMPONENT_NAME")) "Button" "sub" st
  = (Throw (FsError Fs.EISDIR), st).
Proof.
  intros st.
  apply (directory_entry_fails "/proj/out" "/proj/template" "COMPONENT_NAME" "Button" "sub" st).
  vm_compute. reflexivity.
Defined.

(** X9: a placeholder that is not a regular expression ([*NAME*], say) makes
    the callback fail for every entry without writing: with the error of
    [readFileSync] when the template file cannot be read, and with the
    [SyntaxError] of [new RegExp] otherwise, although the file name has been
    computed with the same placeholder by then. *)
Theorem invalid_pattern_never_writes cd td p name file st :
  RegExp.parse p = RegExp.SyntaxError ->
  exists e,
    eachFile cd td (Val (JSON.Str p)) name file st = (Throw e, st)
    /\ match Fs.readFileSync (files st) (Path.join [td; file]) with
       | inr _ => e = RegExpSyntaxError
       | inl e' => e = FsError e'
       end.
Proof.
  intros H. rewrite eachFile_unfold, H.
  destruct (Fs.readFileSync (files st) (Path.join [td; file])) as [e|content];
    eexists; split; reflexivity.
Qed.

Lemma invalid_pattern_never_writes_witness :
  let st := project "*NAME*" [("a.js", "*NAME*")] in
  exists e,
    eachFile "/proj/out" "/proj/template" (Val (JSON.Str "*NAME*")) "Button" "a.js" st
    = (Throw e, st)
    /\ match Fs.readFileSync (files st) (Path.join ["/proj/template"; "a.js"]) with
       | inr _ => e = RegExpSyntaxError
       | inl e' => e = FsError e'
       end.
Proof.
  intros st.
  apply (invalid_pattern_never_writes "/proj/out" "/proj/template" "*NAME*" "Button" "a.js" st).
  reflexivity.
Defined.

(** ** What the callback writes *)

Lemma find_first_none p s :
  Str.find_first p s = None ->
  Str.strip_prefix p s = None
  /\ match s with
     | EmptyString => True
     | String _ s' => Str.find_first p s' = None
     end.
Proof.
  destruct s as [|c s']; cbn [Str.find_first].
  - destruct (Str.strip_prefix p ""); [discriminate | auto].
  - destruct (Str.strip_prefix p (String c s')); [discriminate|].
    destruct (Str.find_first p s') as [[b a]|]; [discriminate | auto].
Qed.

Lemma replace_from_absent p replacement before bol s :
  Str.find_first p s = None ->
  RegExp.replace_from (literal p) replacement before bol s 0 = s.
Proof.
  revert before bol. induction s as [|c s IH]; intros before bol H;
    apply find_first_none in H as [Hs Hrest];
    cbn [RegExp.replace_from]; rewrite matches_literal, Hs; [reflexivity|].
  rewrite IH by exact Hrest. reflexivity.
Qed.

(** X10: an entry that does not mention the placeholder, in its name or in
    its text, is copied as it is under its own name, whatever the component
    name is (a dollar sign in it plays no part, as nothing is replaced). *)
Theorem copy_without_placeholder cd td p name file st content :
  plain_pattern p = true ->
  Str.contains p file = false ->
  Fs.readFileSync (files st) (Path.join [td; file]) = inr content ->
  Str.contains p content = false ->
  eachFile cd td (Val (JSON.Str p)) name file st
  = fs_writeFileSync (Path.join [cd; file]) content st.
Proof.
  intros Hp Hf Hr Hc. rewrite eachFile_unfold, Hr, (parse_plain _ Hp), (replace_absent _ _ _ Hf).
  unfold RegExp.replace. rewrite replace_from_absent; [reflexivity|].
  unfold Str.contains in Hc. destruct (Str.find_first p content); [discriminate | reflexivity].
Qed.

Lemma copy_without_placeholder_witness :
  let st := {| files := <[ ["proj"; "out"] := Fs.Dir ]>
                          (files (project "COMPONENT_NAME" [("README.md", "read me")]));
               console := [] |} in
  eachFile "/proj/out" "/proj/template" (Val (JSON.Str "COMPONENT_NAME")) "$&$$" "README.md" st
  = fs_writeFileSync (Path.join ["/proj/out"; "README.md"]) "read me" st.
Proof.
  intros st.
  apply (copy_without_placeholder "/proj/out" "/proj/template" "COMPONENT_NAME" "$&$$"
           "README.md" st "read me"); vm_compute; reflexivity.
Defined.

(** X11: for a placeholder without pattern syntax and a component name
    without a dollar sign, the callback writes the text of the template file
    with every occurrence of the placeholder replaced by the component
    name. *)
Theorem plain_placeholder_replaced_everywhere cd td p name file st :
  plain_pattern p = true ->
  Str.has_char "$" name = false ->
  eachFile cd td (Val (JSON.Str p)) name file st
  = (let* templateContent := fs_readFileSync (Path.join [td; file]) in
     fs_writeFileSync (Path.join [cd; JsString.replace file p name])
                      (Str.replace_all p name templateContent)) st.
Proof.
  intros Hp Hn. rewrite eachFile_unfold, (parse_plain _ Hp).
  unfold bind, fs_readFileSync, fs_read, fs_writeFileSync, fs_write.
  destruct (Fs.readFileSync (files st) (Path.join [td; file])) as [e|content];
    [reflexivity|].
  unfold RegExp.replace. rewrite replace_from_literal by exact Hn. reflexivity.
Qed.

Lemma plain_placeholder_replaced_everywhere_witness :
  let st := {| files := <[ ["proj"; "out"] := Fs.Dir ]>
                          (files (project "NAME" [("NAME.css", ".NAME { } .NAME-x { }")]));
               console := [] |} in
  eachFile "/proj/out" "/proj/template" (Val (JSON.Str "NAME")) "Card" "NAME.css" st
  = (let* templateContent := fs_readFileSync (Path.join ["/proj/template"; "NAME.css"]) in
     fs_writeFileSync (Path.join ["/proj/out"; JsString.replace "NAME.css" "NAME" "Card"])
                      (Str.replace_all "NAME" "Card" templateContent)) st.
Proof.
  intros st.
  apply (plain_placeholder_replaced_everywhere "/proj/out" "/proj/template" "NAME" "Card"
           "NAME.css" st); reflexivity.
Defined.

Lemma strip_prefix_app p rest : Str.strip_prefix p (p +:+ rest) = Some rest.
Proof.
  induction p as [|c p IH]; [reflexivity|].
  rewrite append_cons. cbn [Str.strip_prefix]. rewrite Ascii.eqb_refl. exact IH.
Qed.

Lemma replace_prefix p name extension :
  Str.has_char "$" name = false ->
  JsString.replace (p +:+ extension) p name = name +:+ extension.
Proof.
  intros H. unfold JsString.replace.
  assert (E : Str.find_first p (p +:+ extension) = Some ("", extension)).
  { destruct (p +:+ extension) eqn:Es; cbn [Str.find_first];
      rewrite <- Es, strip_prefix_app; reflexivity. }
  rewrite E, GetSubstitution_plain by exact H. reflexivity.
Qed.

(** X12: the copy of a template entry named by the placeholder followed by
    an extension ([COMPONENT_NAME.js], [COMPONENT_NAME.test.js]).  For a
    component name without a dollar sign and a placeholder that [new RegExp]
    accepts, when the template file can be read and the file named by the
    component name followed by that extension can be written in the
    component directory, the callback succeeds and its one effect is that
    file, holding the text of the template file with the matches of the
    placeholder replaced. *)
Theorem placeholder_file_name cd td p re name extension st content :
  Str.has_char "$" name = false ->
  RegExp.parse p = RegExp.Compiled re ->
  Fs.readFileSync (files st) (Path.join [td; p +:+ extension]) = inr content ->
  can_write (files st) (Path.join [cd; name +:+ extension]) = true ->
  eachFile cd td (Val (JSON.Str p)) name (p +:+ extension) st
  = (Ret tt,
     {| files := <[Fs.locate (Path.join [cd; name +:+ extension])
                   := Fs.File (RegExp.replace content re name)]> (files st);
        console := console st |}).
Proof.
  intros Hd Hre Hr Hw. rewrite eachFile_unfold, Hr, Hre, (replace_prefix _ _ _ Hd).
  rewrite (can_write_writeFileSync _ _ (RegExp.replace content re name) Hw). reflexivity.
Qed.

Lemma placeholder_file_name_witness :
  eachFile "/proj/src/components/Button" "/proj/template" (Val (JSON.Str "COMPONENT_NAME"))
           "Button" ("COMPONENT_NAME" +:+ ".js") project_again
  = (Ret tt,
     {| files := <[Fs.locate (Path.join ["/proj/src/components/Button"; "Button" +:+ ".js"])
                   := Fs.File (RegExp.replace "export const COMPONENT_NAME = () => {};"
                                              (literal "COMPONENT_NAME") "Button")]>
                   (files project_again);
        console := console project_again |}).
Proof.
  apply (placeholder_file_name "/proj/src/components/Button" "/proj/template"
           "COMPONENT_NAME" (literal "COMPONENT_NAME") "Button" ".js" project_again
           "export const COMPONENT_NAME = () => {};");
    vm_compute; reflexivity.
Defined.

(** ** Where the entries are read and written *)

(** X13: whatever the configuration holds ([.], [..], doubled or trailing
    slashes), the template file of an entry is read at the path made of the
    segments of the template directory and the name of the entry, and a copy
    whose name is an entry name is written at the segments of the component
    directory and that name: no [.] or [..] segment reaches the file
    system. *)
Theorem entries_inside_their_directories proc c t p name file :
  plain_name file = true ->
  Fs.locate (templateFilePath proc t file)
  = (Fs.locate (templateDir proc t) ++ [file])%list
  /\ Forall (fun x => plain_name x = true) (Fs.locate (templateDir proc t))
  /\ Forall (fun x => plain_name x = true) (Fs.locate (componentDir proc c name))
  /\ (plain_name (JsString.replace file p name) = true ->
      Fs.locate (componentFilePath proc c p name file)
      = (Fs.locate (componentDir proc c name) ++ [JsString.replace file p name])%list).
Proof.
  intros Hf.
  destruct (join_absolute_normal (dirname proc) [t]) as [tsegs Ht].
  destruct (join_absolute_normal (dirname proc) [c; name]) as [csegs Hc].
  fold (__dirname proc) in Ht, Hc. fold (templateDir proc t) in Ht.
  fold (componentDir proc c name) in Hc.
  unfold templateFilePath, componentFilePath.
  rewrite (locate_normal _ _ Ht), (locate_normal _ _ Hc).
  rewrite (locate_normal _ _ (child_normal _ _ _ Ht Hf)).
  split; [reflexivity|]. split; [apply Ht|]. split; [apply Hc|].
  intros Ho. apply locate_normal. apply child_normal; assumption.
Qed.

Lemma entries_inside_their_directories_witness :
  Fs.locate (templateFilePath proj "./x/../template//" "COMPONENT_NAME.js")
  = (Fs.locate (templateDir proj "./x/../template//") ++ ["COMPONENT_NAME.js"])%list
  /\ Forall (fun x => plain_name x = true) (Fs.locate (templateDir proj "./x/../template//"))
  /\ Forall (fun x => plain_name x = true)
       (Fs.locate (componentDir proj "src/./components/" "Button"))
  /\ (plain_name (JsString.replace "COMPONENT_NAME.js" "COMPONENT_NAME" "Button") = true ->
      Fs.locate (componentFilePath proj "src/./components/" "COMPONENT_NAME" "Button"
                   "COMPONENT_NAME.js")
      = (Fs.locate (componentDir proj "src/./components/" "Button")
         ++ [JsString.replace "COMPONENT_NAME.js" "COMPONENT_NAME" "Button"])%list).
Proof.
  apply (entries_inside_their_directories proj "src/./components/" "./x/../template//"
           "COMPONENT_NAME" "Button" "COMPONENT_NAME.js").
  reflexivity.
Defined.

(** ** A completed run *)

Lemma eachFile_ret cd td p name file st st' :
  eachFile cd td (Val (JSON.Str p)) name file st = (Ret tt, st') ->
  exists content re,
    Fs.readFileSync (files st) (Path.join [td; file]) = inr content
    /\ RegExp.parse p = RegExp.Compiled re
    /\ Fs.writeFileSync (files st) (Path.join [cd; JsString.replace file p name])
         (RegExp.replace content re name) = inr (files st')
    /\ console st' = console st.
Proof.
  rewrite eachFile_unfold.
  destruct (Fs.readFileSync _ _) as [e|content]; [discriminate|].
  destruct (RegExp.parse p) as [re| |]; try discriminate.
  destruct (Fs.writeFileSync _ _ _) as [e|m] eqn:Hw; [discriminate|].
  intros [= <-]. exists content, re. auto.
Qed.

Lemma forEach_ret_copies cd td p name l st st' :
  forEach l (eachFile cd td (Val (JSON.Str p)) name) st = (Ret tt, st') ->
  forall file, In file l ->
    Fs.is_file (files st') (Fs.locate (Path.join [cd; JsString.replace file p name])) = true.
Proof.
  revert st. induction l as [|x l IH]; intros st H file Hin; [destruct Hin|].
  cbn [forEach] in H. unfold bind in H.
  destruct (eachFile cd td (Val (JSON.Str p)) name x st) as [[[]| | |] st1] eqn:Hx;
    try discriminate.
  destruct Hin as [<- | Hin]; [|eapply IH; eassumption].
  apply (forEach_keeps_file cd td (Val (JSON.Str p)) name l _ _ _ _ H).
  apply eachFile_ret in Hx as (content & re & _ & _ & Hw & _).
  apply writeFileSync_inr in Hw as (-> & Hne & _).
  unfold Fs.is_file. rewrite node_at_lookup by exact Hne.
  rewrite lookup_insert_eq. reflexivity.
Qed.

(** X14: when a run completes, every entry that [readdirSync] listed has a
    copy: at the path computed for it there is a regular file. *)
Theorem completed_run_copies_every_entry proc name st c t p m1 templateFiles file :
  config_fields proc st = Some (c, t, Val (JSON.Str p)) ->
  Fs.mkdirSync (files st) (componentDir proc c name) = inr m1 ->
  Fs.readdirSync m1 (templateDir proc t) = inr templateFiles ->
  fst (run proc name st) = Completed ->
  In file templateFiles ->
  Fs.is_file (files (snd (run proc name st)))
    (Fs.locate (componentFilePath proc c p name file)) = true.
Proof.
  intros Hc Hm Hl. rewrite (run_configured proc name st c t _ Hc).
  rewrite materialize_unfold. cbn [prompted files console]. rewrite Hm. cbn zeta. rewrite Hl.
  destruct (forEach templateFiles _ _) as [[[]| | |] st2] eqn:Hf;
    cbn [fst snd outcome_of print]; try discriminate.
  intros _ Hin. unfold print. cbn [snd files].
  exact (forEach_ret_copies _ _ _ _ _ _ _ Hf file Hin).
Qed.

Lemma completed_run_copies_every_entry_witness :
  let st := project "COMPONENT_NAME"
              [("COMPONENT_NAME.js", "export const COMPONENT_NAME = () => {};")] in
  Fs.is_file (files (snd (run proj "Button" st)))
    (Fs.locate (componentFilePath proj "./src/components" "COMPONENT_NAME" "Button"
                  "COMPONENT_NAME.js")) = true.
Proof.
  intros st.
  apply (completed_run_copies_every_entry proj "Button" st "./src/components" "./template"
           "COMPONENT_NAME"
           (<[ ["proj"; "src"; "components"; "Button"] := Fs.Dir ]>
              (<[ ["proj"; "src"; "components"] := Fs.Dir ]>
                 (<[ ["proj"; "src"] := Fs.Dir ]> (files st))))
           ["COMPONENT_NAME.js"]).
  - vm_compute. reflexivity.
  - compute_done.
  - vm_compute. reflexivity.
  - vm_compute. reflexivity.
  - left. reflexivity.
Defined.

Lemma forEach_frame_key cd td p name l st r st' k :
  forEach l (eachFile cd td (Val (JSON.Str p)) name) st = (r, st') ->
  (forall file, In file l ->
     Fs.locate (Path.join [cd; JsString.replace file p name]) <> k) ->
  files st' !! k = files st !! k.
Proof.
  intros Hf Hk.
  apply (forEach_frame _
           (fun file k => Fs.locate (Path.join [cd; JsString.replace file p name]) <> k))
    in Hf.
  - destruct Hf as [_ Hf]. apply Hf. exact Hk.
  - intros file st0 r0 st0' H0. apply eachFile_frame in H0 as [H1 H2].
    split; [exact H1|]. intros k0 Hk0. apply H2. intros p0 [= <-]. exact Hk0.
Qed.

Lemma forEach_ret_contents cd td p re name l :
  RegExp.parse p = RegExp.Compiled re ->
  forall st st',
    forEach l (eachFile cd td (Val (JSON.Str p)) name) st = (Ret tt, st') ->
    NoDup (List.map (fun f => Fs.locate (Path.join [cd; JsString.replace f p name])) l) ->
    (forall f g, In f l -> In g l ->
       Fs.locate (Path.join [cd; JsString.replace f p name])
       <> Fs.locate (Path.join [td; g])) ->
    forall file content, In file l ->
      Fs.readFileSync (files st) (Path.join [td; file]) = inr content ->
      Fs.readFileSync (files st') (Path.join [cd; JsString.replace file p name])
      = inr (RegExp.replace content re name).
Proof.
  intros Hre. induction l as [|x l IH]; intros st st' H Hnd Hdis file content Hin Hr;
    [destruct Hin|].
  cbn [forEach] in H. unfold bind in H.
  destruct (eachFile cd td (Val (JSON.Str p)) name x st) as [[[]| | |] st1] eqn:Hx;
    try discriminate.
  apply eachFile_ret in Hx as (cx & re' & Hrx & Hre' & Hw & _).
  rewrite Hre in Hre'. injection Hre' as <-.
  apply writeFileSync_inr in Hw as (Hm1 & Hne & Ht & _).
  cbn [List.map] in Hnd. apply NoDup_cons in Hnd as [Hx_notin Hnd].
  destruct Hin as [<- | Hin].
  - rewrite Hr in Hrx. injection Hrx as <-.
    apply readFileSync_inr. split; [|exact Ht]. rewrite node_at_lookup by exact Hne.
    rewrite (forEach_frame_key _ _ _ _ _ _ _ _ _ H).
    + rewrite Hm1. apply lookup_insert_eq.
    + intros y Hy E. apply Hx_notin. apply list_elem_of_In. rewrite <- E.
      apply (in_map (fun f => Fs.locate (Path.join [cd; JsString.replace f p name]))).
      exact Hy.
  - apply (IH st1 st' H Hnd).
    + intros f g Hf Hg. apply Hdis; right; assumption.
    + exact Hin.
    + apply readFileSync_inr in Hr as [Hn Htr]. apply readFileSync_inr.
      split; [|exact Htr]. destruct (node_at_file _ _ _ Hn) as [Hne' Hk].
      rewrite node_at_lookup by exact Hne'. rewrite Hm1.
      rewrite lookup_insert_ne; [exact Hk|].
      apply Hdis; [left; reflexivity | right; exact Hin].
Qed.

(** X15: what a completed run has written.  When the copies have different
    paths, and none is written over a template file, every copy holds the
    text that its template file had before the run, with the matches of the
    placeholder replaced by the component name. *)
Theorem completed_run_contents proc name st c t p re m1 templateFiles file content :
  config_fields proc st = Some (c, t, Val (JSON.Str p)) ->
  RegExp.parse p = RegExp.Compiled re ->
  Fs.mkdirSync (files st) (componentDir proc c name) = inr m1 ->
  Fs.readdirSync m1 (templateDir proc t) = inr templateFiles ->
  NoDup (List.map (fun f => Fs.locate (componentFilePath proc c p name f)) templateFiles) ->
  (forall f g, In f templateFiles -> In g templateFiles ->
     Fs.locate (componentFilePath proc c p name f)
     <> Fs.locate (templateFilePath proc t g)) ->
  fst (run proc name st) = Completed ->
  In file templateFiles ->
  Fs.readFileSync (files st) (templateFilePath proc t file) = inr content ->
  Fs.readFileSync (files (snd (run proc name st))) (componentFilePath proc c p name file)
  = inr (RegExp.replace content re name).
Proof.
  intros Hc Hre Hm Hl Hnd Hdis. rewrite (run_configured proc name st c t _ Hc).
  rewrite materialize_unfold. cbn [prompted files console]. rewrite Hm. cbn zeta. rewrite Hl.
  destruct (forEach templateFiles _ _) as [[[]| | |] st2] eqn:Hf;
    cbn [fst snd outcome_of]; try discriminate.
  intros _ Hin Hr. unfold print. cbn [snd files].
  apply (forEach_ret_contents _ _ _ _ _ _ Hre _ _ Hf Hnd Hdis file content Hin).
  cbn [files]. apply readFileSync_inr in Hr as [Hn Ht]. apply readFileSync_inr.
  split; [|exact Ht]. destruct (node_at_file _ _ _ Hn) as [Hne Hk].
  rewrite node_at_lookup by exact Hne. eapply mkdirSync_keeps; eassumption.
Qed.

Lemma completed_run_contents_witness :
  let st := project "NAME" [("NAME.js", "const NAME = 1;"); ("NAME.css", ".NAME {}")] in
  Fs.readFileSync (files (snd (run proj "Card" st)))
    (componentFilePath proj "./src/components" "NAME" "Card" "NAME.css")
  = inr (RegExp.replace ".NAME {}" (literal "NAME") "Card").
Proof.
  intros st.
  apply (completed_run_contents proj "Card" st "./src/components" "./template" "NAME"
           (literal "NAME")
           (<[ ["proj"; "src"; "components"; "Card"] := Fs.Dir ]>
              (<[ ["proj"; "src"; "components"] := Fs.Dir ]>
                 (<[ ["proj"; "src"] := Fs.Dir ]> (files st))))
           ["NAME.css"; "NAME.js"]).
  - vm_compute. reflexivity.
  - vm_compute. reflexivity.
  - compute_done.
  - vm_compute. reflexivity.
  - compute_done.
  - intros f g [<- | [<- | []]] [<- | [<- | []]]; vm_compute; discriminate.
  - vm_compute. reflexivity.
  - left. reflexivity.
  - vm_compute. reflexivity.
Defined.

(** ** The component directory *)

Lemma normalizeSegments_snoc allow stack segs name :
  plain_name name = true ->
  Path.normalizeSegments allow stack (segs ++ [name])
  = (Path.normalizeSegments allow stack segs ++ [name])%list.
Proof.
  intros Hn. pose proof (plain_name_inv _ Hn) as (_ & H0 & H1 & H2 & _).
  revert stack. induction segs as [|x l IH]; intros stack.
  - cbn [app Path.normalizeSegments]. rewrite H0, H1, H2. reflexivity.
  - change ((x :: l) ++ [name])%list with (x :: (l ++ [name]))%list.
    cbn [Path.normalizeSegments].
    destruct (String.eqb x "" || String.eqb x "."); [apply IH|].
    destruct (String.eqb x ".."); [|apply IH].
    destruct stack as [|top stack']; [apply IH|].
    destruct (String.eqb top ".."); apply IH.
Qed.

Lemma locate_normalize s :
  Path.isAbsolute s = true ->
  Fs.locate (Path.normalize s) = Path.normalizeSegments false [] (Str.split Path.sep s).
Proof. intros H. apply locate_normal. apply normalize_absolute. exact H. Qed.

(** X16: the answer is not checked.  For an answer that is an entry name
    the component directory is the entry of that name in the components
    directory; for the empty answer it is the components directory itself,
    so that the copies are written next to the other components. *)
Theorem component_directory_of_name proc c name :
  plain_name name = true ->
  Fs.locate (componentDir proc c name)
  = (Fs.locate (componentDir proc c "") ++ [name])%list
  /\ componentDir proc c "" = Path.join [__dirname proc; c].
Proof.
  intros Hn. pose proof (plain_name_inv _ Hn) as (Hne & _ & _ & _ & Hsep).
  assert (E0 : componentDir proc c "" = Path.join [__dirname proc; c]).
  { unfold componentDir, Path.join. cbn [List.filter Path.nonempty].
    destruct (Path.nonempty (__dirname proc)), (Path.nonempty c); reflexivity. }
  split; [|exact E0]. rewrite E0.
  unfold componentDir, Path.join, __dirname. rewrite render_cons.
  cbn [List.filter Path.nonempty]. rewrite Hne.
  set (d := String Path.sep (Str.join "/" (dirname proc))).
  assert (H : forall parts,
             parts <> [] ->
             Path.isAbsolute (Str.join "/" parts) = true ->
             Fs.locate (Path.normalize (Str.join "/" (parts ++ [name])))
             = (Fs.locate (Path.normalize (Str.join "/" parts)) ++ [name])%list).
  { intros parts Hp Ha. rewrite join_snoc by exact Hp.
    change (Str.join "/" parts +:+ "/" +:+ name)
      with (Str.join "/" parts +:+ String Path.sep name).
    rewrite !locate_normalize; [| exact Ha |].
    - rewrite split_app, (split_without_sep _ _ Hsep).
      apply normalizeSegments_snoc. exact Hn.
    - destruct (Str.join "/" parts) as [|c0 r]; [discriminate|].
      rewrite append_cons. exact Ha. }
  destruct (Path.nonempty c) eqn:Ec.
  - apply (H [d; c]); [discriminate|]. reflexivity.
  - apply (H [d]); [discriminate|]. reflexivity.
Qed.

Lemma component_directory_of_name_witness :
  Fs.locate (componentDir proj "./src/components" "Button")
  = (Fs.locate (componentDir proj "./src/components" "") ++ ["Button"])%list
  /\ componentDir proj "./src/components" "" = Path.join [__dirname proj; "./src/components"].
Proof.
  apply (component_directory_of_name proj "./src/components" "Button"). reflexivity.
Defined.

(** ** The empty placeholder *)

(** The loop goes through when the pattern compiles and, before it, every
    entry can be read and every copy can be written. *)
Lemma forEach_completes cd td p re name l :
  RegExp.parse p = RegExp.Compiled re ->
  forall st,
    (forall file, In file l ->
       (exists data, Fs.readFileSync (files st) (Path.join [td; file]) = inr data)
       /\ can_write (files st) (Path.join [cd; JsString.replace file p name]) = true) ->
    exists st', forEach l (eachFile cd td (Val (JSON.Str p)) name) st = (Ret tt, st').
Proof.
  intros Hre. induction l as [|x l IH]; intros st H.
  - eexists. reflexivity.
  - destruct (H x (or_introl eq_refl)) as [[data Hr] Hw].
    cbn [forEach]. unfold bind. rewrite eachFile_unfold, Hr, Hre.
    rewrite (can_write_writeFileSync _ _ (RegExp.replace data re name) Hw).
    apply IH. cbn [files]. intros file Hin.
    destruct (H file (or_intror Hin)) as [Hr' Hw'].
    pose proof (can_write_writeFileSync _ _ (RegExp.replace data re name) Hw) as Hwx.
    split.
    + apply readable_iff. apply readable_iff in Hr' as [Hf Ht]. split; [|exact Ht].
      eapply writeFileSync_keeps_file; eassumption.
    + eapply can_write_kept; eassumption.
Qed.

(** The pieces of a string that goes on without a separator: the last
    piece goes on. *)
Lemma split_append_last sep s :
  exists pre l,
    Str.split sep s = (pre ++ [l])%list
    /\ Str.has_char sep l = false
    /\ forall f, Str.has_char sep f = false ->
         Str.split sep (s +:+ f) = (pre ++ [l +:+ f])%list.
Proof.
  induction s as [|c s (pre & l & IH1 & IH2 & IH3)].
  - exists [], EmptyString. repeat split. intros f Hf.
    rewrite !append_empty_l. apply split_without_sep. exact Hf.
  - destruct (Ascii.eqb c sep) eqn:Ec.
    + exists (EmptyString :: pre), l. split; [|split; [exact IH2|]].
      * cbn [Str.split]. rewrite Ec, IH1. reflexivity.
      * intros f Hf. rewrite append_cons. cbn [Str.split]. rewrite Ec, (IH3 f Hf). reflexivity.
    + destruct pre as [|x pre].
      * exists [], (String c l). split; [|split].
        -- cbn [Str.split]. rewrite Ec, IH1. reflexivity.
        -- cbn [Str.has_char]. rewrite Ascii.eqb_sym, Ec, IH2. reflexivity.
        -- intros f Hf. rewrite !append_cons. cbn [Str.split]. rewrite Ec, (IH3 f Hf).
           reflexivity.
      * exists (String c x :: pre), l. split; [|split; [exact IH2|]].
        -- cbn [Str.split]. rewrite Ec, IH1. reflexivity.
        -- intros f Hf. rewrite append_cons. cbn [Str.split]. rewrite Ec, (IH3 f Hf).
           reflexivity.
Qed.

Lemma has_char_app c a b : Str.has_char c (a +:+ b) = Str.has_char c a || Str.has_char c b.
Proof.
  induction a as [|x a IH]; [rewrite append_empty_l; reflexivity|].
  rewrite append_cons. cbn [Str.has_char]. rewrite IH, orb_assoc. reflexivity.
Qed.

Lemma plain_name_append l f :
  Str.has_char Path.sep l = false -> plain_name f = true -> plain_name (l +:+ f) = true.
Proof.
  intros Hl Hf. pose proof (plain_name_inv _ Hf) as (Hne & _ & H1 & H2 & Hsep).
  destruct l as [|a l]; [rewrite append_empty_l; exact Hf|].
  destruct f as [|b f]; [discriminate|].
  unfold plain_name. rewrite has_char_app, Hl, Hsep. rewrite append_cons.
  assert (E1 : String.eqb (String a (l +:+ String b f)) "." = false).
  { apply String.eqb_neq. intros [= _ E]. destruct l; discriminate. }
  assert (E2 : String.eqb (String a (l +:+ String b f)) ".." = false).
  { apply String.eqb_neq. intros [= _ E]. destruct l as [|a' l].
    - rewrite append_empty_l in E. rewrite E in H1. discriminate.
    - rewrite append_cons in E. injection E as _ E. destruct l; discriminate. }
  rewrite E1, E2. reflexivity.
Qed.

Lemma append_cancel_l (l f g : string) : l +:+ f = l +:+ g -> f = g.
Proof.
  induction l as [|a l IH]; [rewrite !append_empty_l; auto|].
  rewrite !append_cons. intros [= H]. auto.
Qed.

(** The path of [x] in the directory [cd], for an absolute [cd] and a
    non-empty [x]. *)
Lemma locate_join_absolute cd x :
  Path.isAbsolute cd = true -> Path.nonempty x = true ->
  Fs.locate (Path.join [cd; x])
  = Path.normalizeSegments false [] (Str.split Path.sep ((cd +:+ "/") +:+ x)).
Proof.
  intros Ha Hx. destruct cd as [|c0 r]; [discriminate|].
  unfold Path.join. cbn [List.filter Path.nonempty]. rewrite Hx. cbn [Str.join].
  rewrite <- append_assoc. apply locate_normalize.
  rewrite !append_cons. exact Ha.
Qed.

(** With the component name before them, different entry names give
    different paths. *)
Lemma prefixed_path_injective cd name f g :
  Path.isAbsolute cd = true -> plain_name f = true -> plain_name g = true ->
  Fs.locate (Path.join [cd; name +:+ f]) = Fs.locate (Path.join [cd; name +:+ g]) ->
  f = g.
Proof.
  intros Ha Hf Hg.
  pose proof (plain_name_inv _ Hf) as (Hfn & _ & _ & _ & Hfs).
  pose proof (plain_name_inv _ Hg) as (Hgn & _ & _ & _ & Hgs).
  assert (Hne : forall x, Path.nonempty x = true -> Path.nonempty (name +:+ x) = true).
  { intros x Hx. destruct name; [rewrite append_empty_l; exact Hx | reflexivity]. }
  rewrite !locate_join_absolute by (try exact Ha; apply Hne; assumption).
  rewrite <- !append_assoc.
  destruct (split_append_last Path.sep ((cd +:+ "/") +:+ name)) as (pre & l & _ & Hl & Hs).
  rewrite (Hs f Hfs), (Hs g Hgs).
  rewrite !normalizeSegments_snoc by (apply plain_name_append; assumption).
  intros E. apply app_inj_tail in E as [_ E]. exact (append_cancel_l _ _ _ E).
Qed.

Lemma prefixed_paths_NoDup cd name l :
  Path.isAbsolute cd = true ->
  NoDup l -> (forall f, In f l -> plain_name f = true) ->
  NoDup (List.map (fun f => Fs.locate (Path.join [cd; name +:+ f])) l).
Proof.
  intros Ha Hnd Hp. induction Hnd as [|x l Hx Hnd IH]; [constructor|].
  cbn [List.map]. constructor.
  - intros Hin. apply list_elem_of_In, in_map_iff in Hin as (g & E & Hg).
    assert (g = x) as ->.
    { apply (prefixed_path_injective cd name g x Ha);
        [apply Hp; right; exact Hg | apply Hp; left; reflexivity | exact E]. }
    apply Hx. apply list_elem_of_In. exact Hg.
  - apply IH. intros f Hf. apply Hp. right. exact Hf.
Qed.

Lemma componentDir_absolute proc c name : Path.isAbsolute (componentDir proc c name) = true.
Proof.
  destruct (join_absolute_normal (dirname proc) [c; name]) as [segs Hn].
  destruct (normal_absolute _ _ Hn) as [r E].
  unfold componentDir, __dirname. rewrite E. reflexivity.
Qed.

Lemma empty_placeholder_name name file :
  Str.has_char "$" name = false -> JsString.replace file "" name = name +:+ file.
Proof.
  intros H. rewrite replace_empty_pattern, GetSubstitution_plain by exact H. reflexivity.
Qed.

(** C8, as the code has it: with the empty placeholder and a component name
    without a dollar sign, when the configuration is read, [mkdirSync] and
    [readdirSync] succeed, every template entry has the name of a directory
    entry and is a regular file that can be read, and the file named by the
    component name followed by the name of the entry can be written in the
    component directory (the directory it is in exists, and it is not a
    directory itself), the run completes and every entry has its copy under
    that name.  When moreover no copy is written over a template file, the
    copy holds the text that the template file had before the run, with the
    component name before every character and once at the end. *)
Theorem empty_placeholder_run proc name st c t m0 templateFiles :
  config_fields proc st = Some (c, t, Val (JSON.Str "")) ->
  Str.has_char "$" name = false ->
  Fs.mkdirSync (files st) (componentDir proc c name) = inr m0 ->
  Fs.readdirSync m0 (templateDir proc t) = inr templateFiles ->
  (forall file, In file templateFiles ->
     plain_name file = true
     /\ (exists data, Fs.readFileSync m0 (templateFilePath proc t file) = inr data)
     /\ can_write m0 (Path.join [componentDir proc c name; name +:+ file]) = true) ->
  fst (run proc name st) = Completed
  /\ (forall file, In file templateFiles ->
        componentFilePath proc c "" name file
        = Path.join [componentDir proc c name; name +:+ file]
        /\ Fs.is_file (files (snd (run proc name st)))
             (Fs.locate (Path.join [componentDir proc c name; name +:+ file])) = true)
  /\ ((forall f g, In f templateFiles -> In g templateFiles ->
         Fs.locate (Path.join [componentDir proc c name; name +:+ f])
         <> Fs.locate (templateFilePath proc t g)) ->
      forall file content, In file templateFiles ->
        Fs.readFileSync (files st) (templateFilePath proc t file) = inr content ->
        Fs.readFileSync (files (snd (run proc name st)))
          (Path.join [componentDir proc c name; name +:+ file])
        = inr (Str.intersperse name content)).
Proof.
  intros Hc Hd Hm Hl Hfiles.
  set (cd := componentDir proc c name) in *. set (td := templateDir proc t) in *.
  assert (Hname : forall file, JsString.replace file "" name = name +:+ file).
  { intros file. apply empty_placeholder_name. exact Hd. }
  destruct (forEach_completes cd td "" [] name templateFiles eq_refl
              {| files := m0; console := console (prompted st) |}) as [st' Hloop].
  { intros file Hin. destruct (Hfiles file Hin) as (_ & Hr & Hw).
    cbn [files]. rewrite Hname. split; [exact Hr | exact Hw]. }
  rewrite (run_configured proc name st c t _ Hc). rewrite materialize_unfold.
  cbn [prompted files console] in *. fold cd. fold td. rewrite Hm. cbn zeta. rewrite Hl.
  rewrite Hloop. unfold print. cbn [fst snd outcome_of files].
  split; [reflexivity|]. split.
  - intros file Hin. unfold componentFilePath. fold cd. rewrite Hname.
    split; [reflexivity|]. rewrite <- Hname.
    exact (forEach_ret_copies _ _ _ _ _ _ _ Hloop file Hin).
  - intros Hdis file content Hin Hr.
    assert (E : Str.intersperse name content = RegExp.replace content [] name).
    { unfold RegExp.replace. rewrite regexp_empty_replace by exact Hd. reflexivity. }
    rewrite E, <- Hname.
    apply (forEach_ret_contents cd td "" [] name templateFiles eq_refl _ _ Hloop).
    + rewrite (List.map_ext _ (fun f => Fs.locate (Path.join [cd; name +:+ f])))
        by (intros f; rewrite Hname; reflexivity).
      apply prefixed_paths_NoDup.
      * apply componentDir_absolute.
      * apply readdirSync_inr in Hl as [_ ->]. apply NoDup_elements.
      * intros f Hf. apply (Hfiles f Hf).
    + intros f g Hf Hg. rewrite Hname. apply Hdis; assumption.
    + exact Hin.
    + cbn [files]. apply readFileSync_inr in Hr as [Hn Ht]. apply readFileSync_inr.
      split; [|exact Ht]. destruct (node_at_file _ _ _ Hn) as [Hne Hk].
      rewrite node_at_lookup by exact Hne. eapply mkdirSync_keeps; eassumption.
Qed.

Lemma empty_placeholder_run_witness :
  let st := project "" [("view.js", "ab")] in
  fst (run proj "Button" st) = Completed
  /\ (forall file, In file ["view.js"] ->
        componentFilePath proj "./src/components" "" "Button" file
        = Path.join [componentDir proj "./src/components" "Button"; "Button" +:+ file]
        /\ Fs.is_file (files (snd (run proj "Button" st)))
             (Fs.locate (Path.join [componentDir proj "./src/components" "Button";
                                    "Button" +:+ file])) = true)
  /\ ((forall f g, In f ["view.js"] -> In g ["view.js"] ->
         Fs.locate (Path.join [componentDir proj "./src/components" "Button"; "Button" +:+ f])
         <> Fs.locate (templateFilePath proj "./template" g)) ->
      forall file content, In file ["view.js"] ->
        Fs.readFileSync (files st) (templateFilePath proj "./template" file) = inr content ->
        Fs.readFileSync (files (snd (run proj "Button" st)))
          (Path.join [componentDir proj "./src/components" "Button"; "Button" +:+ file])
        = inr (Str.intersperse "Button" content)).
Proof.
  intros st.
  apply (empty_placeholder_run proj "Button" st "./src/components" "./template"
           (<[ ["proj"; "src"; "components"; "Button"] := Fs.Dir ]>
              (<[ ["proj"; "src"; "components"] := Fs.Dir ]>
                 (<[ ["proj"; "src"] := Fs.Dir ]> (files st))))
           ["view.js"]).
  - vm_compute. reflexivity.
  - reflexivity.
  - compute_done.
  - vm_compute. reflexivity.
  - intros file [<- | []]. split; [vm_compute; reflexivity|].
    split; [eexists; vm_compute; reflexivity | vm_compute; reflexivity].
Defined.

(** The copy that the witness speaks of: [Buttonview.js], with the text
    [ButtonaButtonbButton]. *)
Example empty_placeholder_Button :
  Fs.readFileSync (files (snd (run proj "Button" (project "" [("view.js", "ab")]))))
    "/proj/src/components/Button/Buttonview.js"
  = inr "ButtonaButtonbButton".
Proof. vm_compute. reflexivity. Qed.

(** The conditions are needed.  With the empty placeholder,
    - for the name [a/b] the copy of [view.js] is to be written to
      [a/b/a/bview.js], in a directory that does not exist: the write fails
      and the run with it, while the same run with a placeholder that the
      file name does not contain completes;
    - for the name [$$] the two dollar signs stand for one in the
      replacement: the copy is [$view.js] and holds [$a$b$], and there is no
      [$$view.js];
    - in the project [overlapping] the copy of [a] is written over the
      template file [xa] before that file is read: the copy of [xa] holds
      the text made from [a], not the text [x2x] made from its own. *)
Lemma empty_placeholder_counterexamples :
  (fst (run proj "a/b" (project "" [("view.js", "ab")])) = Uncaught (FsError Fs.ENOENT)
   /\ fst (run proj "a/b" (project "COMPONENT_NAME" [("view.js", "ab")])) = Completed)
  /\ (let st' := snd (run proj "$$" (project "" [("view.js", "ab")])) in
      Fs.readFileSync (files st') "/proj/src/components/$$/$view.js" = inr "$a$b$"
      /\ Fs.existsSync (files st') "/proj/src/components/$$/$$view.js" = false
      /\ Str.intersperse "$$" "ab" = "$$a$$b$$")
  /\ (fst (run proj "x" overlapping) = Completed
      /\ Fs.readdirSync (files overlapping) "/proj/x" = inr ["a"; "xa"]
      /\ Fs.readFileSync (files overlapping) "/proj/x/xa" = inr "2"
      /\ Fs.readFileSync (files (snd (run proj "x" overlapping))) "/proj/x/xxa"
         = inr "xxx1xxx"
      /\ Str.intersperse "x" "2" = "x2x").
Proof. repeat split; vm_compute; reflexivity. Qed.
